(** * Telegram agent on a single-node LangGraph graph (llm_3.py)

    A shallow embedding of [llm_3.py]: the message and state types, the
    processing node, the graph built by [create_agent_graph], the Telegram
    handlers and [main].  Stateful code is written in a small state and
    exception monad over an environment [Env] that holds the checkpointer's
    storage, Telegram's per-user [user_data], the state of the external
    completion service and a trace of the observable effects.

    The handlers are given twice: first with a Telegram that accepts every
    call, then with a Telegram that can refuse a call, in which case the call
    raises; the first are the second when nothing is refused. *)

From stdpp Require Import base strings list gmap pretty.
From Stdlib Require Import ZArith Lia.

Local Open Scope string_scope.
Local Open Scope Z_scope.
Local Open Scope list_scope.

(** ** Messages (langchain_core.messages) *)

Inductive MessageType := system | human | ai.

Record BaseMessage := mkMessage { type : MessageType; content : string }.

Definition SystemMessage (c : string) : BaseMessage := mkMessage system c.
Definition HumanMessage (c : string) : BaseMessage := mkMessage human c.
Definition AIMessage (c : string) : BaseMessage := mkMessage ai c.

#[global] Instance MessageType_eq_dec : EqDecision MessageType.
Proof. solve_decision. Defined.

#[global] Instance BaseMessage_eq_dec : EqDecision BaseMessage.
Proof. solve_decision. Defined.

(** ** The agent state (class AgentState)

    [messages] is annotated with the reducer [add] (operator.add, list
    concatenation): a write to that key is appended to the stored value.
    [user_id] has no reducer: a write replaces the stored value. *)

Record AgentState := mkState { messages : list BaseMessage; user_id : string }.

Definition add (xs ys : list BaseMessage) : list BaseMessage := xs ++ ys.

(** What a node returns: a dict holding some of the state's keys. *)
Record StateUpdate := mkUpdate {
  upd_messages : option (list BaseMessage);
  upd_user_id : option string
}.

Definition apply_update (st : AgentState) (u : StateUpdate) : AgentState :=
  {| messages := match upd_messages u with
                 | Some ms => add (messages st) ms
                 | None => messages st
                 end;
     user_id := default (user_id st) (upd_user_id u) |}.

(** ** Exceptions and results *)

Record Exception := mkException { exc_class : string; exc_args : string }.

(** Python's [str(e)]. *)
Definition str_exc (e : Exception) : string := exc_args e.

Inductive Result (A : Type) : Type :=
| Return (a : A)
| Raise (e : Exception).
Arguments Return {A} a.
Arguments Raise {A} e.

#[global] Instance Exception_eq_dec : EqDecision Exception.
Proof. solve_decision. Defined.

#[global] Instance Result_eq_dec {A} `{EqDecision A} : EqDecision (Result A).
Proof. solve_decision. Defined.

(** ** Telegram updates

    An update that carries a new message with text from a user: the sender,
    the chat and the message are present. *)

Record Update := mkUpdateT {
  effective_user : Z;      (* update.effective_user.id *)
  effective_chat : Z;      (* update.effective_chat.id *)
  message_text : string    (* update.message.text *)
}.

(** Python's [str] on an integer. *)
Definition str (n : Z) : string := pretty n.

(** Python's [str.lower] on the ASCII letters.  The command handlers compare
    command names in lower case, and the names registered by [main] are ASCII. *)
Definition lower_ascii (c : Ascii.ascii) : Ascii.ascii :=
  let n := Ascii.N_of_ascii c in
  if ((65 <=? n) && (n <=? 90))%N then Ascii.ascii_of_N (n + 32) else c.

Fixpoint lower (s : string) : string :=
  match s with
  | EmptyString => EmptyString
  | String c rest => String (lower_ascii c) (lower rest)
  end.

(** ** Observable effects *)

Inductive Handler := start_command_h | clear_command_h | help_command_h | handle_message_h.

Inductive HandlerSpec :=
| CommandHandler (command : string) (callback : Handler)
| MessageHandler_text_not_command (callback : Handler).

Inductive Event :=
| Print (s : string)
| SendChatAction (chat_id : Z) (action : string)
| ReplyText (chat_id : Z) (text : string) (parse_mode : option string)
| NodeRun (name : string)
| LlmInvoke (full_messages : list BaseMessage)
| BuildApplication (token : string)
| AddHandler (h : HandlerSpec)
| AddErrorHandler
| RunPolling.

#[global] Instance Handler_eq_dec : EqDecision Handler.
Proof. solve_decision. Defined.

#[global] Instance HandlerSpec_eq_dec : EqDecision HandlerSpec.
Proof. solve_decision. Defined.

#[global] Instance Event_eq_dec : EqDecision Event.
Proof. solve_decision. Defined.

Definition END : string := "__end__".

(** The fixed system instruction of [process_message]. *)
Definition system_message : BaseMessage := SystemMessage "
    Eres un asistente virtual inteligente y amigable que responde consultas por Telegram.
    
    Instrucciones:
    - Responde de manera clara, concisa y útil
    - Usa emojis ocasionalmente para hacer la conversación más amigable
    - Si no sabes algo, admítelo honestamente
    - Puedes responder en español o inglés según el idioma del usuario
    - Mantén un tono profesional pero cercano
    ".

Definition welcome_message : string := "
👋 ¡Hola! Soy un agente inteligente powered by LangGraph y Gemini.

Puedo ayudarte con:
• Responder preguntas generales
• Mantener conversaciones contextuales
• Asistirte con diversas consultas

💡 Simplemente escríbeme tu pregunta y te responderé.

Comandos disponibles:
/start - Mostrar este mensaje
/clear - Limpiar el historial de conversación
/help - Obtener ayuda
    ".

Definition help_text : string := "
📚 **Guía de uso**

Este bot utiliza LangGraph para mantener conversaciones inteligentes.

**Características:**
- Memoria contextual por usuario
- Respuestas generadas por Gemini 2.5-flash
- Trazabilidad completa en LangSmith

**Tips:**
- Haz preguntas claras y específicas
- Usa /clear si quieres empezar una conversación nueva
- El bot recuerda el contexto de la conversación
    ".

Definition clear_reply : string :=
  "🗑️ Historial de conversación limpiado. ¡Empecemos de nuevo!".

Definition error_prefix : string := "❌ Ocurrió un error: ".

(** A scripted completion service, for running the model on examples: each
    call consumes the next scripted outcome; an exhausted script times out. *)
Abbreviation Script := (list (Result string)).

Definition scripted (ctx : list BaseMessage) (script : Script) : Result string * Script :=
  match script with
  | [] => (Raise (mkException "TimeoutError" "timed out"), [])
  | r :: rest => (r, rest)
  end.

(** Sample inputs for the examples: two senders and two failure causes. *)
Definition sample_update (text : string) : Update := mkUpdateT 42 42 text.
Definition other_update (text : string) : Update := mkUpdateT 7 7 text.
Definition timed_out : Exception := mkException "TimeoutError" "timed out".
Definition quota_exceeded : Exception := mkException "ResourceExhausted" "quota exceeded".
Definition empty_text : Exception := mkException "BadRequest" "Message text is empty".

(** ** The environment and the monad of effects

    [World] is the state of the external completion service; [llm_invoke] is
    the call [llm.invoke(full_messages)]: it answers with the reply's text or
    raises, and may change the service's state. *)

Section Agent.

Context {World : Type}.
Variable llm_invoke : list BaseMessage → World → Result string * World.

Record Env := mkEnv {
  memory : gmap string AgentState;          (* MemorySaver: thread_id -> state *)
  user_data : gmap Z (gmap string string);  (* Telegram's context.user_data, per user *)
  world : World;
  trace : list Event
}.

Definition M (A : Type) : Type := Env → Result A * Env.

Definition ret {A} (a : A) : M A := λ env, (Return a, env).

Definition bind {A B} (m : M A) (f : A → M B) : M B := λ env,
  match m env with
  | (Return a, env') => f a env'
  | (Raise e, env') => (Raise e, env')
  end.

Definition raise {A} (e : Exception) : M A := λ env, (Raise e, env).

Definition try_except {A} (body : M A) (handler : Exception → M A) : M A := λ env,
  match body env with
  | (Return a, env') => (Return a, env')
  | (Raise e, env') => handler e env'
  end.

#[local] Instance M_ret : MRet M := @ret.
#[local] Instance M_bind : MBind M := λ A B f m, bind m f.

Definition emit (ev : Event) : M unit := λ env,
  (Return (), mkEnv (memory env) (user_data env) (world env) (trace env ++ [ev])).

Definition print (s : string) : M unit := emit (Print s).

(** The calls to Telegram, with a Telegram that accepts them; the calls that
    Telegram can refuse are [send_chat_action_net] and [reply_text_net]. *)
Definition send_chat_action (chat_id : Z) (action : string) : M unit :=
  emit (SendChatAction chat_id action).

Definition reply_text (update : Update) (text : string) (parse_mode : option string) : M unit :=
  emit (ReplyText (effective_chat update) text parse_mode).

(** [llm.invoke]: the request is logged, the service answers, and a reply
    comes back as an [AIMessage]. *)
Definition llm (full_messages : list BaseMessage) : M BaseMessage := λ env,
  let '(r, w) := llm_invoke full_messages (world env) in
  (match r with Return c => Return (AIMessage c) | Raise e => Raise e end,
   mkEnv (memory env) (user_data env) w (trace env ++ [LlmInvoke full_messages])).

(** ** The node and the decision function *)

Definition process_message (state : AgentState) : M StateUpdate :=
  let messages := messages state in
  let full_messages := [system_message] ++ messages in
  response ← llm full_messages;
  mret {| upd_messages := Some [response]; upd_user_id := None |}.

Definition should_continue (state : AgentState) : string := END.

(** ** The graph and its execution (langgraph) *)

Definition Node : Type := AgentState → M StateUpdate.

Record StateGraph := mkGraph {
  nodes : list (string * Node);
  entry_point : option string;
  edges : list (string * string)
}.

Definition empty_graph : StateGraph := mkGraph [] None [].

Definition add_node (name : string) (f : Node) (g : StateGraph) : StateGraph :=
  mkGraph (nodes g ++ [(name, f)]) (entry_point g) (edges g).

Definition set_entry_point (name : string) (g : StateGraph) : StateGraph :=
  mkGraph (nodes g) (Some name) (edges g).

Definition add_edge (src dst : string) (g : StateGraph) : StateGraph :=
  mkGraph (nodes g) (entry_point g) (edges g ++ [(src, dst)]).

Definition create_agent_graph : StateGraph :=
  let workflow := empty_graph in
  let workflow := add_node "process" process_message workflow in
  let workflow := set_entry_point "process" workflow in
  let workflow := add_edge "process" END workflow in
  workflow.

Definition agent : StateGraph := create_agent_graph.

(** Modelled from the spec: the checkpointer ([MemorySaver]) belongs to the
    langgraph package, which is not among the sources.  Per the Checkpoint
    Manager's contract, [get] returns the state stored for the thread id, or
    creates and registers an empty one when the id is absent; it never fails. *)
Definition empty (thread_id : string) : AgentState :=
  {| messages := []; user_id := thread_id |}.

Definition checkpoint_get (thread_id : string) : M AgentState := λ env,
  match memory env !! thread_id with
  | Some st => (Return st, env)
  | None =>
      let st := empty thread_id in
      (Return st, mkEnv (<[thread_id := st]> (memory env)) (user_data env) (world env) (trace env))
  end.

(** Modelled from the spec: [put] of the Checkpoint Manager's contract
    replaces the state stored for the thread id. *)
Definition checkpoint_put (thread_id : string) (st : AgentState) : M unit := λ env,
  (Return (), mkEnv (<[thread_id := st]> (memory env)) (user_data env) (world env) (trace env)).

(** The messages stored for a thread, as an observer reads them. *)
Definition stored_messages (thread_id : string) (env : Env) : list BaseMessage :=
  match memory env !! thread_id with
  | Some st => messages st
  | None => []
  end.

Fixpoint lookup_node (name : string) (ns : list (string * Node)) : option Node :=
  match ns with
  | [] => None
  | (n, f) :: rest => if String.eqb n name then Some f else lookup_node name rest
  end.

Definition successors (g : StateGraph) (name : string) : list string :=
  map snd (filter (λ e, String.eqb (fst e) name = true) (edges g)).

Definition next_nodes (g : StateGraph) (ran : list string) : list string :=
  filter (λ n, String.eqb n END = false) (flat_map (successors g) ran).

(** One superstep runs every scheduled node on the same state and collects
    the nodes' writes. *)
Fixpoint run_nodes (g : StateGraph) (names : list string) (state : AgentState)
  : M (list StateUpdate) :=
  match names with
  | [] => mret []
  | n :: rest =>
      match lookup_node n (nodes g) with
      | None => raise (mkException "ValueError" ("unknown node " +:+ n))
      | Some f =>
          emit (NodeRun n);;
          u ← f state;
          us ← run_nodes g rest state;
          mret (u :: us)
      end
  end.

Definition recursion_limit : nat := 25.

(** Modelled from the spec: the compiled graph's execution loop belongs to
    the langgraph package, which is not among the sources.  A superstep runs
    the scheduled nodes, applies their writes through the state's reducers
    and stores the result for the thread; the run ends when the edges lead
    only to [END], and is aborted when the step budget is used up. *)
Fixpoint run_loop (fuel : nat) (g : StateGraph) (thread_id : string)
    (scheduled : list string) (state : AgentState) : M AgentState :=
  match scheduled with
  | [] => mret state
  | _ :: _ =>
      match fuel with
      | O => raise (mkException "GraphRecursionError" "Recursion limit reached")
      | S fuel' =>
          writes ← run_nodes g scheduled state;
          let state' := fold_left apply_update writes state in
          checkpoint_put thread_id state';;
          run_loop fuel' g thread_id (next_nodes g scheduled) state'
      end
  end.

(** Modelled from the spec: [agent.invoke(input_state, config)] of the
    compiled graph, following the Transport Adapter's steps 2 to 6: get the
    thread's state, append the input through the reducers and store it before
    the node runs (the user message of a failed turn remains in the store),
    run the graph from its entry point, store the result. *)
Definition invoke (g : StateGraph) (input_state : StateUpdate) (thread_id : string)
  : M AgentState :=
  saved ← checkpoint_get thread_id;
  let state := apply_update saved input_state in
  checkpoint_put thread_id state;;
  run_loop recursion_limit g thread_id (option_list (entry_point g)) state.

(** ** Telegram handlers *)

Definition start_command (update : Update) : M unit :=
  reply_text update welcome_message None.

Definition user_data_clear (uid : Z) : M unit := λ env,
  (Return (), mkEnv (memory env) (<[uid := ∅]> (user_data env)) (world env) (trace env)).

Definition clear_command (update : Update) : M unit :=
  let user_id := str (effective_user update) in
  user_data_clear (effective_user update);;
  reply_text update clear_reply None.

Definition help_command (update : Update) : M unit :=
  reply_text update help_text (Some "Markdown").

(** [result["messages"][-1].content] *)
Definition last_content (result : AgentState) : M string :=
  match last (messages result) with
  | Some m => mret (content m)
  | None => raise (mkException "IndexError" "list index out of range")
  end.

Definition error_notice (e : Exception) : string := error_prefix +:+ str_exc e.

Definition handle_message (update : Update) : M unit :=
  let user_id := str (effective_user update) in
  let user_message := message_text update in
  send_chat_action (effective_chat update) "typing";;
  try_except
    (let thread_id := user_id in
     let input_state :=
       {| upd_messages := Some [HumanMessage user_message];
          upd_user_id := Some user_id |} in
     result ← invoke agent input_state thread_id;
     ai_response ← last_content result;
     reply_text update ai_response None)
    (λ e,
     let error_message := error_notice e in
     print ("Error procesando mensaje: " +:+ str_exc e);;
     reply_text update error_message None).

Definition error_handler (error : Exception) : M unit :=
  print ("Error: " +:+ str_exc error).

(** ** main *)

Definition truthy (s : option string) : bool :=
  match s with
  | None => false
  | Some s => negb (String.eqb s "")
  end.

Definition main (environ : gmap string string) : M unit :=
  let telegram_token := environ !! "TELEGRAM_BOT_TOKEN" in
  if negb (truthy telegram_token) then
    print "❌ Error: TELEGRAM_BOT_TOKEN no está configurado en el archivo .env";;
    print "Por favor, añade tu token de Telegram al archivo .env:";;
    print "TELEGRAM_BOT_TOKEN=tu_token_aquí"
  else
    print "🚀 Iniciando bot de Telegram con LangGraph...";;
    print "📊 LangSmith está configurado para observabilidad";;
    print "🧠 Usando Gemini 2.5-flash como modelo";;
    emit (BuildApplication (default "" telegram_token));;
    emit (AddHandler (CommandHandler "start" start_command_h));;
    emit (AddHandler (CommandHandler "clear" clear_command_h));;
    emit (AddHandler (CommandHandler "help" help_command_h));;
    emit (AddHandler (MessageHandler_text_not_command handle_message_h));;
    emit AddErrorHandler;;
    print "✅ Bot iniciado. Presiona Ctrl+C para detener.";;
    emit RunPolling.

(** The handler the application runs for an inbound event, as [main]
    registers them.  A command handler matches its command whatever the case
    of the letters: /CLEAR and /Clear run [clear_command] as /clear does. *)
Inductive Inbound :=
| Command (name : string) (update : Update)
| Text (update : Update).

Definition dispatch (ev : Inbound) : M unit :=
  match ev with
  | Command name update =>
      if String.eqb (lower name) "start" then start_command update
      else if String.eqb (lower name) "clear" then clear_command update
      else if String.eqb (lower name) "help" then help_command update
      else mret ()
  | Text update => handle_message update
  end.

(** Running a handler to completion: the environment it leaves. *)
Definition exec {A} (m : M A) (env : Env) : Env := snd (m env).

Fixpoint exec_all (evs : list Inbound) (env : Env) : Env :=
  match evs with
  | [] => env
  | ev :: rest => exec_all rest (exec (dispatch ev) env)
  end.

(** The thread a turn runs on: the sender's id, as [handle_message] derives it. *)
Definition thread_of (update : Update) : string := str (effective_user update).

(** The request context of a turn: what [process_message] builds from the
    state [invoke] hands it, that is the stored messages with the inbound
    text appended. *)
Definition turn_context (update : Update) (env : Env) : list BaseMessage :=
  [system_message] ++
  add (stored_messages (thread_of update) env) [HumanMessage (message_text update)].

(** The initial environment: [MemorySaver()] starts empty. *)
Definition initial (w : World) : Env := mkEnv ∅ ∅ w [].

(** The outcome of the completion call of a turn started in [env]. *)
Definition outcome (update : Update) (env : Env) : Result string :=
  fst (llm_invoke (turn_context update env) (world env)).

Definition completes (update : Update) (env : Env) (reply : string) : Prop :=
  outcome update env = Return reply.

Definition fails (update : Update) (env : Env) (cause : Exception) : Prop :=
  outcome update env = Raise cause.

(** Every completion call of a run of text events succeeds, with these replies. *)
Fixpoint all_complete (updates : list Update) (replies : list string) (env : Env) : Prop :=
  match updates, replies with
  | [], [] => True
  | u :: us, r :: rs => completes u env r ∧ all_complete us rs (exec (handle_message u) env)
  | _, _ => False
  end.

(** User and assistant messages alternating, in order. *)
Fixpoint transcript (texts replies : list string) : list BaseMessage :=
  match texts, replies with
  | t :: ts, r :: rs => HumanMessage t :: AIMessage r :: transcript ts rs
  | _, _ => []
  end.

(** Views of a trace: the events a step added, the request contexts sent to
    the completion service, the nodes run, the texts sent to the user. *)
Definition new_events (before after : Env) : list Event :=
  drop (length (trace before)) (trace after).

Definition requests (tr : list Event) : list (list BaseMessage) :=
  omap (λ ev, match ev with LlmInvoke ctx => Some ctx | _ => None end) tr.

Definition node_runs (tr : list Event) : list string :=
  omap (λ ev, match ev with NodeRun n => Some n | _ => None end) tr.

Definition replies_sent (tr : list Event) : list string :=
  omap (λ ev, match ev with ReplyText _ text _ => Some text | _ => None end) tr.

Definition is_print (ev : Event) : bool :=
  match ev with Print _ => true | _ => false end.

Definition not_system (m : BaseMessage) : Prop := type m ≠ system.

Definition assistant_count (ms : list BaseMessage) : nat :=
  length (filter (λ m, type m = ai) ms).

(** No stored message has the system role. *)
Definition no_system_stored (env : Env) : Prop :=
  ∀ tid, Forall not_system (stored_messages tid env).

(** A request context is the system instruction followed by messages of
    other roles. *)
Definition well_formed_request (ctx : list BaseMessage) : Prop :=
  ∃ rest, ctx = system_message :: rest ∧ Forall not_system rest.

(** What a turn appends to its thread. *)
Definition appended (update : Update) (env : Env) : list BaseMessage :=
  HumanMessage (message_text update) ::
  match outcome update env with
  | Return c => [AIMessage c]
  | Raise _ => []
  end.

(** The invariant behind the absence of stored system messages. *)
Definition system_free (env : Env) : Prop :=
  no_system_stored env ∧ Forall well_formed_request (requests (trace env)).

(** The input [handle_message] hands to the graph for an inbound text. *)
Definition text_input (text thread_id : string) : StateUpdate :=
  {| upd_messages := Some [HumanMessage text]; upd_user_id := Some thread_id |}.

(** The environment with another state stored for a thread. *)
Definition with_thread (tid : string) (st : AgentState) (env : Env) : Env :=
  mkEnv (<[tid := st]> (memory env)) (user_data env) (world env) (trace env).

(** ** Views of inbound events and of stored histories *)

Definition update_of (ev : Inbound) : Update :=
  match ev with Command _ update => update | Text update => update end.

Definition sender (ev : Inbound) : Z := effective_user (update_of ev).

Definition is_text (ev : Inbound) : bool :=
  match ev with Text _ => true | Command _ _ => false end.

(** The reply a command gets, as [dispatch] routes it: its text and parse
    mode, or nothing for a command no handler is registered for. *)
Definition command_reply (name : string) : option (string * option string) :=
  if String.eqb (lower name) "start" then Some (welcome_message, None)
  else if String.eqb (lower name) "clear" then Some (clear_reply, None)
  else if String.eqb (lower name) "help" then Some (help_text, Some "Markdown")
  else None.

Definition gets_reply (ev : Inbound) : bool :=
  match ev with
  | Text _ => true
  | Command name _ => bool_decide (is_Some (command_reply name))
  end.

Definition count_texts (evs : list Inbound) : nat :=
  length (filter (λ ev, is_text ev = true) evs).

Definition count_replied (evs : list Inbound) : nat :=
  length (filter (λ ev, gets_reply ev = true) evs).

(** The text events of one sender. *)
Definition texts_from (uid : Z) (evs : list Inbound) : nat :=
  length (filter (λ ev, is_text ev = true ∧ sender ev = uid) evs).

Definition human_count (ms : list BaseMessage) : nat :=
  length (filter (λ m, type m = human) ms).

(** The replies sent, with the chat each one went to. *)
Definition replies_to (tr : list Event) : list (Z * string) :=
  omap (λ ev, match ev with ReplyText chat text _ => Some (chat, text) | _ => None end) tr.

(** Every assistant message comes directly after a user message, and no
    message has the system role; [prev_human] tells whether the message
    before the list is a user message. *)
Fixpoint answers_follow (prev_human : bool) (ms : list BaseMessage) : bool :=
  match ms with
  | [] => true
  | m :: rest =>
      match type m with
      | human => answers_follow true rest
      | ai => prev_human && answers_follow false rest
      | system => false
      end
  end.

(** Each stored state carries the id of its thread and at least one message. *)
Definition threads_consistent (env : Env) : Prop :=
  ∀ tid st, memory env !! tid = Some st → user_id st = tid ∧ messages st ≠ [].

(** Telegram's [user_data] holds nothing for any user. *)
Definition user_data_blank (env : Env) : Prop :=
  ∀ uid d, user_data env !! uid = Some d → d = ∅.

(** The effects of [main] other than printing. *)
Definition startup_actions (tr : list Event) : list Event :=
  omap (λ ev, if is_print ev then None else Some ev) tr.

(** ** Telegram calls that can be refused

    [send_chat_action] and [reply_text] are calls to Telegram, and Telegram
    can refuse a call (an empty text, a blocked chat, a network error); the
    call then raises and has no effect.  [refuses] says which calls are
    refused, and with what exception, in which environment.  The handlers
    above are the handlers below with a Telegram that refuses nothing
    ([process_update_reliable]). *)

Variable refuses : Event → Env → option Exception.

Definition call (ev : Event) : M unit := λ env,
  match refuses ev env with
  | Some e => (Raise e, env)
  | None => emit ev env
  end.

Definition send_chat_action_net (chat_id : Z) (action : string) : M unit :=
  call (SendChatAction chat_id action).

Definition reply_text_net (update : Update) (text : string) (parse_mode : option string)
  : M unit :=
  call (ReplyText (effective_chat update) text parse_mode).

Definition start_command_net (update : Update) : M unit :=
  reply_text_net update welcome_message None.

Definition clear_command_net (update : Update) : M unit :=
  let user_id := str (effective_user update) in
  user_data_clear (effective_user update);;
  reply_text_net update clear_reply None.

Definition help_command_net (update : Update) : M unit :=
  reply_text_net update help_text (Some "Markdown").

(** The typing action is sent before the [try]: its failure leaves the
    handler.  The reply is sent inside the [try]: its failure is handled like
    a failure of the completion.  The notice is sent from the [except]
    branch: its failure leaves the handler. *)
Definition handle_message_net (update : Update) : M unit :=
  let user_id := str (effective_user update) in
  let user_message := message_text update in
  send_chat_action_net (effective_chat update) "typing";;
  try_except
    (let thread_id := user_id in
     let input_state :=
       {| upd_messages := Some [HumanMessage user_message];
          upd_user_id := Some user_id |} in
     result ← invoke agent input_state thread_id;
     ai_response ← last_content result;
     reply_text_net update ai_response None)
    (λ e,
     let error_message := error_notice e in
     print ("Error procesando mensaje: " +:+ str_exc e);;
     reply_text_net update error_message None).

Definition dispatch_net (ev : Inbound) : M unit :=
  match ev with
  | Command name update =>
      if String.eqb (lower name) "start" then start_command_net update
      else if String.eqb (lower name) "clear" then clear_command_net update
      else if String.eqb (lower name) "help" then help_command_net update
      else mret ()
  | Text update => handle_message_net update
  end.

(** Modelled from the spec: what the application does with one inbound
    event belongs to the python-telegram-bot package, which is not among the
    sources.  Per the error handling design, a handler's failure does not
    stop the event loop: it is handed to the error handler [main] registers,
    and the next event is processed. *)
Definition process_update (ev : Inbound) : M unit :=
  try_except (dispatch_net ev) error_handler.

Fixpoint run (evs : list Inbound) (env : Env) : Env :=
  match evs with
  | [] => env
  | ev :: rest => run rest (exec (process_update ev) env)
  end.

(** Whether Telegram accepts the typing action of a text event. *)
Definition typing_accepted (update : Update) (env : Env) : bool :=
  match refuses (SendChatAction (effective_chat update) "typing") env with
  | None => true
  | Some _ => false
  end.

(** The environment when the reply of a turn is sent: the typing action is
    out, the graph has run, the thread holds what the turn appended. *)
Definition after_invoke (update : Update) (env : Env) : Env :=
  mkEnv
    (<[thread_of update :=
         mkState (stored_messages (thread_of update) env ++ appended update env)
                 (thread_of update)]> (memory env))
    (user_data env)
    (snd (llm_invoke (turn_context update env) (world env)))
    (trace env ++
     [SendChatAction (effective_chat update) "typing"; NodeRun "process";
      LlmInvoke (turn_context update env)]).

(** The environment with more events at the end of its trace. *)
Definition log (evs : list Event) (env : Env) : Env :=
  mkEnv (memory env) (user_data env) (world env) (trace env ++ evs).

(** The [except] branch of the handler, entered with the exception [e]. *)
Definition send_notice (update : Update) (e : Exception) : M unit :=
  print ("Error procesando mensaje: " +:+ str_exc e);;
  reply_text_net update (error_notice e) None.

(** What the [except] branch does from [env]: its result and the events it
    adds. *)
Definition notice_events (update : Update) (e : Exception) (env : Env)
  : Result unit * list Event :=
  let printed := Print ("Error procesando mensaje: " +:+ str_exc e) in
  let notice := ReplyText (effective_chat update) (error_notice e) None in
  match refuses notice (log [printed] env) with
  | None => (Return (), [printed; notice])
  | Some e' => (Raise e', [printed])
  end.

(** What a turn does once the graph has run: its result and the events it
    adds. *)
Definition reply_events (update : Update) (env : Env) : Result unit * list Event :=
  match outcome update env with
  | Return c =>
      match refuses (ReplyText (effective_chat update) c None) (after_invoke update env) with
      | None => (Return (), [ReplyText (effective_chat update) c None])
      | Some e => notice_events update e (after_invoke update env)
      end
  | Raise e => notice_events update e (after_invoke update env)
  end.

(** The text events of a sender that reach the completion call in a run. *)
Fixpoint texts_reaching (uid : Z) (evs : list Inbound) (env : Env) : nat :=
  match evs with
  | [] => 0
  | ev :: rest =>
      ((match ev with
        | Text update =>
            if bool_decide (effective_user update = uid) && typing_accepted update env
            then 1 else 0
        | Command _ _ => 0
        end) + texts_reaching uid rest (exec (process_update ev) env))%nat
  end.

(** * Properties *)

(** ** Equations of the monad and of the graph *)

Ltac unfold_monad :=
  unfold mbind, M_bind, bind, mret, M_ret, ret, raise, try_except in *.

Lemma lookup_process : lookup_node "process" (nodes agent) = Some process_message.
Proof. reflexivity. Qed.

Lemma next_nodes_process : next_nodes agent ["process"] = [].
Proof. reflexivity. Qed.

Lemma entry_point_agent : option_list (entry_point agent) = ["process"].
Proof. reflexivity. Qed.

(** The node makes one request to the completion service; its context is the
    system instruction followed by the state's messages. *)
Lemma process_message_eq (st : AgentState) (env : Env) :
  process_message st env =
  let '(r, w) := llm_invoke ([system_message] ++ messages st) (world env) in
  let env' := mkEnv (memory env) (user_data env) w
                (trace env ++ [LlmInvoke ([system_message] ++ messages st)]) in
  match r with
  | Return c => (Return (mkUpdate (Some [AIMessage c]) None), env')
  | Raise e => (Raise e, env')
  end.
Proof.
  unfold process_message, llm. unfold_monad.
  destruct (llm_invoke _ _) as [[c|e] w]; reflexivity.
Qed.

Lemma run_nodes_process (st : AgentState) (env : Env) :
  run_nodes agent ["process"] st env =
  let '(r, w) := llm_invoke ([system_message] ++ messages st) (world env) in
  let env' := mkEnv (memory env) (user_data env) w
                (trace env ++ [NodeRun "process"; LlmInvoke ([system_message] ++ messages st)]) in
  match r with
  | Return c => (Return [mkUpdate (Some [AIMessage c]) None], env')
  | Raise e => (Raise e, env')
  end.
Proof.
  cbn [run_nodes]. rewrite lookup_process. unfold_monad. unfold emit.
  rewrite process_message_eq. cbn [world trace memory user_data].
  destruct (llm_invoke _ _) as [[c|e] w]; cbn; rewrite <- app_assoc; reflexivity.
Qed.

Lemma run_loop_process (fuel : nat) (tid : string) (st : AgentState) (env : Env) :
  run_loop (S fuel) agent tid ["process"] st env =
  let '(r, w) := llm_invoke ([system_message] ++ messages st) (world env) in
  let tr := trace env ++ [NodeRun "process"; LlmInvoke ([system_message] ++ messages st)] in
  match r with
  | Return c =>
      let st' := mkState (messages st ++ [AIMessage c]) (user_id st) in
      (Return st', mkEnv (<[tid := st']> (memory env)) (user_data env) w tr)
  | Raise e => (Raise e, mkEnv (memory env) (user_data env) w tr)
  end.
Proof.
  cbn [run_loop]. unfold_monad. rewrite run_nodes_process.
  destruct (llm_invoke _ _) as [[c|e] w]; cbn zeta; [|reflexivity].
  unfold checkpoint_put. rewrite next_nodes_process.
  destruct fuel; reflexivity.
Qed.

(** A run of the graph on one inbound text: the input is stored first, the
    node runs once, and its reply is stored when the completion succeeds. *)
Lemma invoke_eq (text tid : string) (env : Env) :
  invoke agent (mkUpdate (Some [HumanMessage text]) (Some tid)) tid env =
  let old := stored_messages tid env in
  let ctx := [system_message] ++ add old [HumanMessage text] in
  let '(r, w) := llm_invoke ctx (world env) in
  let tr := trace env ++ [NodeRun "process"; LlmInvoke ctx] in
  match r with
  | Return c =>
      let st' := mkState (old ++ [HumanMessage text; AIMessage c]) tid in
      (Return st', mkEnv (<[tid := st']> (memory env)) (user_data env) w tr)
  | Raise e =>
      (Raise e,
       mkEnv (<[tid := mkState (old ++ [HumanMessage text]) tid]> (memory env))
         (user_data env) w tr)
  end.
Proof.
  unfold invoke, recursion_limit. rewrite entry_point_agent. unfold_monad.
  unfold checkpoint_get, checkpoint_put, stored_messages, add.
  destruct (memory env !! tid) as [st|] eqn:Hst; rewrite run_loop_process;
    cbn [apply_update upd_messages upd_user_id messages user_id default empty
         memory world trace user_data add];
    unfold add; cbn [app];
    destruct (llm_invoke _ _) as [[c|e] w]; cbn zeta;
    rewrite ?insert_insert_eq, <- ?app_assoc; reflexivity.
Qed.

Lemma last_content_snoc (st : AgentState) (ms : list BaseMessage) (m : BaseMessage)
    (tid : string) (env : Env) :
  last_content (mkState (ms ++ [m]) tid) env = (Return (content m), env).
Proof. unfold last_content. cbn [messages]. rewrite last_snoc. reflexivity. Qed.

(** What [handle_message] does, by the outcome of the completion call. *)
Lemma handle_message_eq (update : Update) (env : Env) :
  handle_message update env =
  let tid := thread_of update in
  let chat := effective_chat update in
  let old := stored_messages tid env in
  let ctx := turn_context update env in
  let user := HumanMessage (message_text update) in
  let '(r, w) := llm_invoke ctx (world env) in
  let tr := trace env ++ [SendChatAction chat "typing"; NodeRun "process"; LlmInvoke ctx] in
  match r with
  | Return c =>
      (Return (),
       mkEnv (<[tid := mkState (old ++ [user; AIMessage c]) tid]> (memory env))
         (user_data env) w (tr ++ [ReplyText chat c None]))
  | Raise e =>
      (Return (),
       mkEnv (<[tid := mkState (old ++ [user]) tid]> (memory env))
         (user_data env) w
         (tr ++ [Print ("Error procesando mensaje: " +:+ str_exc e);
                 ReplyText chat (error_notice e) None]))
  end.
Proof.
  unfold handle_message, turn_context, thread_of. unfold_monad.
  unfold send_chat_action, emit. rewrite invoke_eq.
  cbn [world trace memory user_data stored_messages].
  change (stored_messages (str (effective_user update))
            {| memory := memory env; user_data := user_data env; world := world env;
               trace := trace env ++ [SendChatAction (effective_chat update) "typing"] |})
    with (stored_messages (str (effective_user update)) env).
  destruct (llm_invoke _ _) as [[c|e] w]; cbn zeta.
  - change [HumanMessage (message_text update); AIMessage c]
      with ([HumanMessage (message_text update)] ++ [AIMessage c]).
    rewrite app_assoc.
    rewrite (last_content_snoc (empty "")). cbn [content AIMessage].
    unfold reply_text, print, emit. cbn [world trace memory user_data].
    rewrite <- !app_assoc. reflexivity.
  - unfold reply_text, print, emit. cbn [world trace memory user_data].
    rewrite <- !app_assoc. reflexivity.
Qed.

(** ** One turn, by components of the environment *)

Lemma memory_handle_message (update : Update) (env : Env) :
  memory (exec (handle_message update) env) =
  <[thread_of update :=
      mkState (stored_messages (thread_of update) env ++ appended update env)
              (thread_of update)]> (memory env).
Proof.
  unfold exec, appended, outcome. rewrite handle_message_eq. cbv zeta.
  destruct (llm_invoke _ _) as [[c|e] w]; reflexivity.
Qed.

Lemma trace_handle_message (update : Update) (env : Env) :
  trace (exec (handle_message update) env) =
  trace env ++
  [SendChatAction (effective_chat update) "typing"; NodeRun "process";
   LlmInvoke (turn_context update env)] ++
  match outcome update env with
  | Return c => [ReplyText (effective_chat update) c None]
  | Raise e => [Print ("Error procesando mensaje: " +:+ str_exc e);
                ReplyText (effective_chat update) (error_notice e) None]
  end.
Proof.
  unfold exec, outcome. rewrite handle_message_eq. cbv zeta.
  destruct (llm_invoke _ _) as [[c|e] w]; cbn [snd fst trace];
    rewrite <- app_assoc; reflexivity.
Qed.

Lemma stored_handle_message (update : Update) (env : Env) (tid : string) :
  stored_messages tid (exec (handle_message update) env) =
  if decide (tid = thread_of update)
  then stored_messages tid env ++ appended update env
  else stored_messages tid env.
Proof.
  unfold stored_messages at 1. rewrite memory_handle_message.
  destruct (decide (tid = thread_of update)) as [->|Hne].
  - rewrite lookup_insert_eq. reflexivity.
  - rewrite lookup_insert_ne by congruence. reflexivity.
Qed.

Lemma new_events_app (env env' : Env) (evs : list Event) :
  trace env' = trace env ++ evs → new_events env env' = evs.
Proof. unfold new_events. intros ->. apply drop_app_length. Qed.

(** The commands leave the checkpointer's storage alone. *)
Lemma memory_start_command (update : Update) (env : Env) :
  memory (exec (start_command update) env) = memory env.
Proof. reflexivity. Qed.

Lemma memory_help_command (update : Update) (env : Env) :
  memory (exec (help_command update) env) = memory env.
Proof. reflexivity. Qed.

Lemma memory_clear_command (update : Update) (env : Env) :
  memory (exec (clear_command update) env) = memory env.
Proof. reflexivity. Qed.

Lemma stored_with_thread_ne (tid tid' : string) (st : AgentState) (env : Env) :
  tid ≠ tid' → stored_messages tid' (with_thread tid st env) = stored_messages tid' env.
Proof.
  intros Hne. unfold stored_messages, with_thread. cbn [memory].
  rewrite lookup_insert_ne by done. reflexivity.
Qed.

(** ** Append-only history *)

(** C6: for every thread and every inbound event (a conversational turn,
    whatever the outcome of its completion call, or a command), the messages
    stored for the thread before the step are a prefix of the messages stored
    after it: the step only appends at the tail. *)
Theorem C6_history_append_only (ev : Inbound) (env : Env) (tid : string) :
  stored_messages tid env `prefix_of` stored_messages tid (exec (dispatch ev) env).
Proof.
  destruct ev as [name update|update]; cbn [dispatch].
  - repeat case_match; reflexivity.
  - rewrite stored_handle_message. case_decide.
    + apply prefix_app_r. reflexivity.
    + reflexivity.
Qed.

(** ** Isolation of threads *)

Lemma requests_handle_message (update : Update) (env : Env) :
  requests (new_events env (exec (handle_message update) env)) = [turn_context update env].
Proof.
  rewrite (new_events_app _ _ _ (trace_handle_message update env)).
  destruct (outcome update env); reflexivity.
Qed.


(** C9: the thread of a turn is the decimal text of the sender's id, and
    distinct sender ids give distinct thread ids.  A turn reads and writes
    only the checkpoint entry under that key: the entry under every other
    key is the same after the turn, the turn's own entry becomes the messages
    it held followed by what the turn appends, the request it sends is built
    from its own entry alone, and changing the entry of any other thread
    beforehand changes nothing else in what the turn does.  So a turn of one
    sender leaves the state stored for any other sender unchanged. *)
Theorem C9_threads_isolated (update other : Update) (env : Env) :
  effective_user other ≠ effective_user update →
  thread_of other ≠ thread_of update
  ∧ memory (exec (handle_message update) env) !! thread_of other
    = memory env !! thread_of other
  ∧ stored_messages (thread_of other) (exec (handle_message update) env)
    = stored_messages (thread_of other) env
  ∧ (∀ st, exec (handle_message update) (with_thread (thread_of other) st env)
           = with_thread (thread_of other) st (exec (handle_message update) env))
  ∧ thread_of other = str (effective_user other)
  ∧ (∀ tid, tid ≠ str (effective_user update) →
       memory (exec (handle_message update) env) !! tid = memory env !! tid)
  ∧ (∀ tid st, tid ≠ str (effective_user update) →
       exec (handle_message update) (with_thread tid st env)
       = with_thread tid st (exec (handle_message update) env))
  ∧ memory (exec (handle_message update) env) !! str (effective_user update)
    = Some (mkState
              (stored_messages (str (effective_user update)) env
               ++ HumanMessage (message_text update)
                  :: match fst (llm_invoke
                                  (system_message ::
                                     stored_messages (str (effective_user update)) env
                                     ++ [HumanMessage (message_text update)])
                                  (world env)) with
                     | Return c => [AIMessage c]
                     | Raise _ => []
                     end)
              (str (effective_user update)))
  ∧ requests (new_events env (exec (handle_message update) env))
    = [system_message ::
         stored_messages (str (effective_user update)) env
         ++ [HumanMessage (message_text update)]].
Proof.
  intros Hne.
  assert (Htid : thread_of other ≠ thread_of update).
  { unfold thread_of, str. intros Heq. apply Hne. by apply (inj pretty). }
  assert (Hframe : ∀ tid st, tid ≠ str (effective_user update) →
       exec (handle_message update) (with_thread tid st env)
       = with_thread tid st (exec (handle_message update) env)).
  { intros tid st Hkey. unfold exec. rewrite !handle_message_eq. cbv zeta.
    unfold turn_context, thread_of. rewrite stored_with_thread_ne by done.
    cbn [world with_thread].
    destruct (llm_invoke _ _) as [[c|e] w]; unfold with_thread;
      cbn [snd memory user_data world trace];
      f_equal; apply insert_insert_ne; congruence. }
  split; [exact Htid|]. split; [|split; [|split; [|split; [|split; [|split; [|split]]]]]].
  - rewrite memory_handle_message. by rewrite lookup_insert_ne.
  - rewrite stored_handle_message. by rewrite decide_False.
  - intros st. by apply Hframe.
  - reflexivity.
  - intros tid Hkey. rewrite memory_handle_message.
    rewrite lookup_insert_ne; [done|]. unfold thread_of. congruence.
  - exact Hframe.
  - rewrite memory_handle_message. unfold thread_of. rewrite lookup_insert_eq.
    reflexivity.
  - rewrite requests_handle_message. reflexivity.
Qed.

(** ** First contact *)

Lemma stored_unknown (tid : string) (env : Env) :
  memory env !! tid = None → stored_messages tid env = [].
Proof. intros H. unfold stored_messages. by rewrite H. Qed.

(** C8: for a thread id the checkpointer has not seen, retrieving the state
    succeeds and yields a fresh empty state, which it registers; the first
    turn on that thread sends the completion service exactly one request,
    whose context is the system instruction followed by the turn's user
    message and nothing else, and afterwards the thread holds what that turn
    appended. *)
Theorem C8_unknown_thread_starts_empty (update : Update) (env : Env) :
  memory env !! thread_of update = None →
  checkpoint_get (thread_of update) env
    = (Return (empty (thread_of update)),
       with_thread (thread_of update) (empty (thread_of update)) env)
  ∧ messages (empty (thread_of update)) = []
  ∧ requests (new_events env (exec (handle_message update) env))
    = [[system_message; HumanMessage (message_text update)]]
  ∧ stored_messages (thread_of update) (exec (handle_message update) env)
    = appended update env.
Proof.
  intros Hnone. split; [|split; [|split]].
  - unfold checkpoint_get. rewrite Hnone. reflexivity.
  - reflexivity.
  - rewrite requests_handle_message. unfold turn_context.
    rewrite (stored_unknown _ _ Hnone). reflexivity.
  - rewrite stored_handle_message, decide_True by done.
    rewrite (stored_unknown _ _ Hnone). reflexivity.
Qed.

(** ** A failed completion *)

Lemma assistant_count_app (xs ys : list BaseMessage) :
  assistant_count (xs ++ ys) = (assistant_count xs + assistant_count ys)%nat.
Proof. unfold assistant_count. by rewrite filter_app, length_app. Qed.

(** C3: when the completion call of a turn fails, the thread's stored
    messages afterwards are the earlier ones followed by the turn's user
    message, with no assistant message added; the next turn of the same
    sender sends a request whose context contains that user message, and when
    it succeeds the thread holds both user messages and then the reply. *)
Theorem C3_failed_turn_keeps_user_message
    (update next : Update) (env : Env) (cause : Exception) :
  fails update env cause →
  effective_user next = effective_user update →
  let tid := thread_of update in
  let env1 := exec (handle_message update) env in
  let env2 := exec (handle_message next) env1 in
  stored_messages tid env1
    = stored_messages tid env ++ [HumanMessage (message_text update)]
  ∧ assistant_count (stored_messages tid env1) = assistant_count (stored_messages tid env)
  ∧ requests (new_events env1 env2)
    = [[system_message] ++ stored_messages tid env ++
       [HumanMessage (message_text update); HumanMessage (message_text next)]]
  ∧ (∀ ctx, ctx ∈ requests (new_events env1 env2) → HumanMessage (message_text update) ∈ ctx)
  ∧ (∀ reply, completes next env1 reply →
       stored_messages tid env2
       = stored_messages tid env ++
         [HumanMessage (message_text update); HumanMessage (message_text next);
          AIMessage reply]).
Proof.
  intros Hfail Hsame tid env1 env2.
  assert (Htid : thread_of next = tid).
  { unfold tid, thread_of. by rewrite Hsame. }
  assert (H1 : stored_messages tid env1
               = stored_messages tid env ++ [HumanMessage (message_text update)]).
  { unfold env1. rewrite stored_handle_message, decide_True by done.
    unfold appended. unfold fails in Hfail. by rewrite Hfail. }
  assert (Hreq : requests (new_events env1 env2)
    = [[system_message] ++ stored_messages tid env ++
       [HumanMessage (message_text update); HumanMessage (message_text next)]]).
  { unfold env2. rewrite requests_handle_message. unfold turn_context, add.
    rewrite Htid, H1, <- app_assoc. reflexivity. }
  split; [exact H1|]. split; [|split; [exact Hreq|split]].
  - rewrite H1, assistant_count_app.
    change (assistant_count [HumanMessage (message_text update)]) with 0%nat. lia.
  - intros ctx. rewrite Hreq. intros ->%list_elem_of_singleton.
    rewrite !elem_of_app. right. right. left.
  - intros reply Hok. unfold env2.
    rewrite stored_handle_message, decide_True by done.
    unfold appended. unfold completes in Hok. rewrite Hok, H1, <- app_assoc.
    reflexivity.
Qed.

(** ** Successful turns *)

Lemma all_complete_length (updates : list Update) (replies : list string) (env : Env) :
  all_complete updates replies env → length replies = length updates.
Proof.
  revert replies env. induction updates as [|u us IH]; intros [|r rs] env; cbn; try done.
  intros [_ H]. f_equal. by eapply IH.
Qed.

Lemma transcript_length (texts replies : list string) :
  length replies = length texts →
  length (transcript texts replies) = (2 * length texts)%nat.
Proof.
  revert replies. induction texts as [|t ts IH]; intros [|r rs]; cbn; try done.
  intros [= H]. rewrite (IH _ H). lia.
Qed.

Lemma successful_turns_append (uid : Z) (updates : list Update) (replies : list string)
    (env : Env) :
  Forall (λ u, effective_user u = uid) updates →
  all_complete updates replies env →
  stored_messages (str uid) (exec_all (Text <$> updates) env)
  = stored_messages (str uid) env ++ transcript (message_text <$> updates) replies.
Proof.
  revert replies env. induction updates as [|u us IH]; intros replies env Huid Hall.
  - destruct replies; [|done]. cbn. by rewrite app_nil_r.
  - destruct replies as [|r rs]; [done|]. destruct Hall as [Hok Hall].
    inversion Huid as [|? ? Hu Hus]; subst.
    cbn [fmap list_fmap exec_all dispatch transcript].
    rewrite (IH rs _ Hus Hall).
    change (str (effective_user u)) with (thread_of u).
    rewrite stored_handle_message, decide_True by done.
    unfold appended. unfold completes in Hok. rewrite Hok, <- app_assoc.
    reflexivity.
Qed.

(** C2: for every N and every sequence of N inbound text events of one
    sender, on a thread that holds no messages beforehand, if every completion
    call succeeds then the thread's stored messages afterwards are the user
    message and the assistant reply of each event in turn, in the order the
    events arrived: exactly 2N entries. *)
Theorem C2_successful_turns_alternate (uid : Z) (updates : list Update)
    (replies : list string) (env : Env) :
  Forall (λ u, effective_user u = uid) updates →
  stored_messages (str uid) env = [] →
  all_complete updates replies env →
  stored_messages (str uid) (exec_all (Text <$> updates) env)
    = transcript (message_text <$> updates) replies
  ∧ length (stored_messages (str uid) (exec_all (Text <$> updates) env))
    = (2 * length updates)%nat.
Proof.
  intros Huid Hempty Hall.
  pose proof (successful_turns_append uid updates replies env Huid Hall) as Heq.
  rewrite Hempty in Heq. cbn [app] in Heq. split; [exact Heq|].
  rewrite Heq, transcript_length; rewrite length_fmap; [done|].
  by eapply all_complete_length.
Qed.

(** ** The single-step graph *)

Lemma assistant_count_reply (ms : list BaseMessage) (text c : string) :
  assistant_count (ms ++ [HumanMessage text; AIMessage c]) = S (assistant_count ms).
Proof.
  rewrite assistant_count_app.
  change (assistant_count [HumanMessage text; AIMessage c]) with 1%nat. lia.
Qed.

Lemma assistant_count_user (ms : list BaseMessage) (text : string) :
  assistant_count (ms ++ [HumanMessage text]) = assistant_count ms.
Proof.
  rewrite assistant_count_app.
  change (assistant_count [HumanMessage text]) with 0%nat. lia.
Qed.

(** C7 (as amended): every execution of the graph for one inbound message
    runs the processing node exactly once and then ends, with no branching
    and no further hop: the only edge out of the node leads to [END], and the
    decision function answers [END] on every state.  When the completion call
    succeeds the run returns, and exactly one assistant message has been
    appended after the user message; when it fails the run ends with that
    failure, and the user message alone has been appended. *)
Theorem C7_graph_runs_node_once (text tid : string) (env : Env) :
  let env' := exec (invoke agent (text_input text tid) tid) env in
  let old := stored_messages tid env in
  let ctx := [system_message] ++ add old [HumanMessage text] in
  successors agent "process" = [END]
  ∧ next_nodes agent ["process"] = []
  ∧ (∀ st, should_continue st = END)
  ∧ node_runs (new_events env env') = ["process"]
  ∧ requests (new_events env env') = [ctx]
  ∧ match fst (invoke agent (text_input text tid) tid env) with
    | Return st =>
        ∃ c, fst (llm_invoke ctx (world env)) = Return c
             ∧ messages st = old ++ [HumanMessage text; AIMessage c]
             ∧ stored_messages tid env' = messages st
             ∧ assistant_count (stored_messages tid env') = S (assistant_count old)
    | Raise e =>
        fst (llm_invoke ctx (world env)) = Raise e
        ∧ stored_messages tid env' = old ++ [HumanMessage text]
        ∧ assistant_count (stored_messages tid env') = assistant_count old
    end.
Proof.
  intros env' old ctx. split; [reflexivity|]. split; [reflexivity|].
  split; [reflexivity|].
  unfold env', exec, text_input. rewrite invoke_eq. cbv zeta. fold old. fold ctx.
  destruct (llm_invoke ctx (world env)) as [[c|e] w]; cbn [fst snd].
  - split; [|split].
    + erewrite new_events_app by reflexivity. reflexivity.
    + erewrite new_events_app by reflexivity. reflexivity.
    + exists c. unfold stored_messages at 1 2. cbn [memory messages].
      rewrite lookup_insert_eq. cbn [messages].
      repeat split. apply assistant_count_reply.
  - split; [|split].
    + erewrite new_events_app by reflexivity. reflexivity.
    + erewrite new_events_app by reflexivity. reflexivity.
    + unfold stored_messages at 1 2. cbn [memory messages].
      rewrite lookup_insert_eq. cbn [messages].
      repeat split. apply assistant_count_user.
Qed.

(** ** The system instruction is never stored *)

Lemma requests_app (tr tr' : list Event) : requests (tr ++ tr') = requests tr ++ requests tr'.
Proof. apply omap_app. Qed.

Lemma requests_trace_handle_message (update : Update) (env : Env) :
  requests (trace (exec (handle_message update) env))
  = requests (trace env) ++ [turn_context update env].
Proof.
  rewrite trace_handle_message, requests_app. f_equal.
  destruct (outcome update env); reflexivity.
Qed.

Lemma not_system_appended (update : Update) (env : Env) :
  Forall not_system (appended update env).
Proof.
  unfold appended. destruct (outcome update env); repeat constructor; discriminate.
Qed.

Lemma system_free_initial (w : World) : system_free (initial w).
Proof.
  split.
  - intros tid. unfold stored_messages, initial. cbn [memory].
    rewrite lookup_empty. constructor.
  - constructor.
Qed.

Lemma system_free_reply (update : Update) (text : string) (mode : option string)
    (env : Env) :
  system_free env → system_free (exec (reply_text update text mode) env).
Proof.
  intros [Hst Hreq]. split.
  - exact Hst.
  - unfold exec, reply_text, emit. cbn [snd trace].
    rewrite requests_app. cbn. by rewrite app_nil_r.
Qed.

Lemma system_free_dispatch (ev : Inbound) (env : Env) :
  system_free env → system_free (exec (dispatch ev) env).
Proof.
  intros Hinv. destruct ev as [name update|update]; cbn [dispatch].
  - repeat case_match.
    + by apply system_free_reply.
    + destruct Hinv as [Hst Hreq]. split; [exact Hst|].
      unfold exec, clear_command, user_data_clear, reply_text, emit. unfold_monad.
      cbn [snd trace]. rewrite requests_app. cbn. by rewrite app_nil_r.
    + by apply system_free_reply.
    + exact Hinv.
  - destruct Hinv as [Hst Hreq]. split.
    + intros tid. rewrite stored_handle_message. case_decide; [|apply Hst].
      apply Forall_app. split; [apply Hst|apply not_system_appended].
    + rewrite requests_trace_handle_message. apply Forall_app. split; [exact Hreq|].
      constructor; [|constructor].
      eexists. split; [reflexivity|].
      apply Forall_app. split; [apply Hst|]. repeat constructor. discriminate.
Qed.

(** C4: every invocation of the processing node sends the completion
    service one request, whose context is the fixed system instruction put in
    front of the messages of the state it is given, and stores nothing.
    After any number of inbound events, from the start of the process, no
    message stored for any thread has the system role; every request context
    sent so far is the system instruction in front of messages of the other
    roles; and the next turn's request is the system instruction in front of
    the thread's current stored messages and the new user message: the
    instruction is made for each request and never accumulated. *)
Theorem C4_system_message_never_stored (evs : list Inbound) (w : World) :
  no_system_stored (exec_all evs (initial w))
  ∧ Forall well_formed_request (requests (trace (exec_all evs (initial w))))
  ∧ (∀ (st : AgentState) (env : Env),
       requests (new_events env (snd (process_message st env)))
         = [[system_message] ++ messages st]
       ∧ memory (snd (process_message st env)) = memory env)
  ∧ (∀ update : Update,
       requests (new_events (exec_all evs (initial w))
                   (exec (handle_message update) (exec_all evs (initial w))))
         = [system_message ::
              stored_messages (str (effective_user update)) (exec_all evs (initial w))
              ++ [HumanMessage (message_text update)]]
       ∧ no_system_stored (exec (handle_message update) (exec_all evs (initial w)))).
Proof.
  assert (Hinv : system_free (exec_all evs (initial w))).
  { generalize (system_free_initial w). generalize (initial w).
    induction evs as [|ev evs IH]; intros env Hinv; cbn [exec_all].
    - exact Hinv.
    - apply IH. by apply system_free_dispatch. }
  destruct Hinv as [Hst Hreq].
  split; [exact Hst|]. split; [exact Hreq|]. split.
  - intros st env. rewrite process_message_eq.
    destruct (llm_invoke _ _) as [[c|e] w']; cbn [snd memory];
      (split; [|reflexivity]); erewrite new_events_app by reflexivity; reflexivity.
  - intros update. split.
    + rewrite requests_handle_message. reflexivity.
    + apply (system_free_dispatch (Text update)). by split.
Qed.

(** ** The failure notice *)

Lemma append_inj_l (p a b : string) : p +:+ a = p +:+ b → a = b.
Proof. induction p as [|ch p IH]; cbn; [done|]. intros [= H]. auto. Qed.

Lemma replies_failed_turn (update : Update) (env : Env) (cause : Exception) :
  fails update env cause →
  replies_sent (new_events env (exec (handle_message update) env)) = [error_notice cause].
Proof.
  intros Hfail. rewrite (new_events_app _ _ _ (trace_handle_message update env)).
  unfold fails in Hfail. rewrite Hfail. reflexivity.
Qed.

(** C5 (as amended): when the completion call fails, the one text the
    handler sends to the user is the fixed prefix followed by the text of the
    failure's cause.  Two failed turns get the same notice exactly when their
    causes have the same text. *)
Theorem C5_failure_notice_carries_cause
    (update1 update2 : Update) (env1 env2 : Env) (cause1 cause2 : Exception) :
  fails update1 env1 cause1 →
  fails update2 env2 cause2 →
  replies_sent (new_events env1 (exec (handle_message update1) env1))
    = [error_prefix +:+ str_exc cause1]
  ∧ replies_sent (new_events env2 (exec (handle_message update2) env2))
    = [error_prefix +:+ str_exc cause2]
  ∧ (replies_sent (new_events env1 (exec (handle_message update1) env1))
     = replies_sent (new_events env2 (exec (handle_message update2) env2))
     ↔ str_exc cause1 = str_exc cause2).
Proof.
  intros H1 H2. rewrite (replies_failed_turn _ _ _ H1), (replies_failed_turn _ _ _ H2).
  unfold error_notice. repeat split.
  - intros [= H]. by apply append_inj_l in H.
  - intros ->. reflexivity.
Qed.

(** ** Start-up without a token *)

(** C10: when TELEGRAM_BOT_TOKEN is absent from the environment, [main]
    prints its three lines of explanation and returns: it changes nothing
    else, and none of its effects builds the application, registers a handler
    or starts polling. *)
Theorem C10_main_without_token (environ : gmap string string) (env : Env) :
  environ !! "TELEGRAM_BOT_TOKEN" = None →
  main environ env
    = (Return (),
       mkEnv (memory env) (user_data env) (world env)
         (trace env ++
          [Print "❌ Error: TELEGRAM_BOT_TOKEN no está configurado en el archivo .env";
           Print "Por favor, añade tu token de Telegram al archivo .env:";
           Print "TELEGRAM_BOT_TOKEN=tu_token_aquí"]))
  ∧ Forall (λ ev, is_print ev = true) (new_events env (exec (main environ) env)).
Proof.
  intros Hnone.
  assert (Heq : main environ env
    = (Return (),
       mkEnv (memory env) (user_data env) (world env)
         (trace env ++
          [Print "❌ Error: TELEGRAM_BOT_TOKEN no está configurado en el archivo .env";
           Print "Por favor, añade tu token de Telegram al archivo .env:";
           Print "TELEGRAM_BOT_TOKEN=tu_token_aquí"]))).
  { unfold main. rewrite Hnone. cbn [truthy negb]. unfold print, emit. unfold_monad.
    cbn [memory user_data world trace]. rewrite <- !app_assoc. reflexivity. }
  split; [exact Heq|].
  unfold exec. rewrite Heq. cbn [snd].
  erewrite new_events_app by reflexivity. repeat constructor.
Qed.

(** * Further properties of the handlers *)

(** ** What one event does *)

Lemma exec_command (name : string) (update : Update) (env : Env) :
  exec (dispatch (Command name update)) env =
  mkEnv (memory env)
    (if String.eqb (lower name) "clear"
     then <[effective_user update := ∅]> (user_data env) else user_data env)
    (world env)
    (trace env ++
     match command_reply name with
     | Some (text, mode) => [ReplyText (effective_chat update) text mode]
     | None => []
     end).
Proof.
  unfold command_reply. cbn [dispatch].
  destruct (String.eqb (lower name) "start") eqn:Hs.
  { apply String.eqb_eq in Hs. rewrite Hs. reflexivity. }
  destruct (String.eqb (lower name) "clear") eqn:Hc; [reflexivity|].
  destruct (String.eqb (lower name) "help") eqn:Hh; [reflexivity|].
  cbn. rewrite app_nil_r. by destruct env.
Qed.

Lemma world_handle_message (update : Update) (env : Env) :
  world (exec (handle_message update) env)
  = snd (llm_invoke (turn_context update env) (world env)).
Proof.
  unfold exec. rewrite handle_message_eq. cbv zeta.
  destruct (llm_invoke _ _) as [[c|e] w]; reflexivity.
Qed.

Lemma user_data_handle_message (update : Update) (env : Env) :
  user_data (exec (handle_message update) env) = user_data env.
Proof.
  unfold exec. rewrite handle_message_eq. cbv zeta.
  destruct (llm_invoke _ _) as [[c|e] w]; reflexivity.
Qed.

Lemma replies_sent_app (tr tr' : list Event) :
  replies_sent (tr ++ tr') = replies_sent tr ++ replies_sent tr'.
Proof. apply omap_app. Qed.

(** ** Counting over a run *)

Lemma filter_cons_length {A} (P : A → Prop) `{∀ x, Decision (P x)} (x : A) (l : list A) :
  length (filter P (x :: l)) = ((if decide (P x) then 1 else 0) + length (filter P l))%nat.
Proof. rewrite filter_cons. by destruct (decide (P x)). Qed.

Lemma requests_dispatch (ev : Inbound) (env : Env) :
  length (requests (trace (exec (dispatch ev) env)))
  = (length (requests (trace env)) + (if is_text ev then 1 else 0))%nat.
Proof.
  destruct ev as [name update|update].
  - rewrite exec_command. cbn [trace is_text]. rewrite requests_app, length_app.
    destruct (command_reply name) as [[text mode]|]; reflexivity.
  - cbn [dispatch is_text]. rewrite requests_trace_handle_message, length_app.
    reflexivity.
Qed.

Lemma replies_dispatch (ev : Inbound) (env : Env) :
  length (replies_sent (trace (exec (dispatch ev) env)))
  = (length (replies_sent (trace env)) + (if gets_reply ev then 1 else 0))%nat.
Proof.
  destruct ev as [name update|update].
  - rewrite exec_command. cbn [trace gets_reply]. rewrite replies_sent_app, length_app.
    destruct (command_reply name) as [[text mode]|]; reflexivity.
  - cbn [dispatch gets_reply]. rewrite trace_handle_message, replies_sent_app, length_app.
    destruct (outcome update env); reflexivity.
Qed.

(** ** Histories *)

Lemma thread_of_inj (update : Update) (uid : Z) :
  str uid = thread_of update ↔ uid = effective_user update.
Proof.
  unfold thread_of, str. split; [|by intros ->].
  intros H. by apply (inj pretty).
Qed.

Lemma human_count_app (xs ys : list BaseMessage) :
  human_count (xs ++ ys) = (human_count xs + human_count ys)%nat.
Proof. unfold human_count. by rewrite filter_app, length_app. Qed.

Lemma human_count_appended (update : Update) (env : Env) :
  human_count (appended update env) = 1%nat.
Proof. unfold appended. destruct (outcome update env); reflexivity. Qed.

Lemma answers_follow_user (b : bool) (ms : list BaseMessage) (text : string) :
  answers_follow b ms = true → answers_follow b (ms ++ [HumanMessage text]) = true.
Proof.
  revert b. induction ms as [|m ms IH]; intros b; cbn; [done|].
  destruct (type m); [done|apply IH|].
  intros [-> H]%andb_true_iff. cbn. by apply IH.
Qed.

Lemma answers_follow_reply (b : bool) (ms : list BaseMessage) (text c : string) :
  answers_follow b ms = true →
  answers_follow b (ms ++ [HumanMessage text; AIMessage c]) = true.
Proof.
  revert b. induction ms as [|m ms IH]; intros b; cbn; [done|].
  destruct (type m); [done|apply IH|].
  intros [-> H]%andb_true_iff. cbn. by apply IH.
Qed.

Lemma answers_follow_handle_message (update : Update) (env : Env) (tid : string) :
  answers_follow false (stored_messages tid env) = true →
  answers_follow false (stored_messages tid (exec (handle_message update) env)) = true.
Proof.
  intros H. rewrite stored_handle_message. case_decide; [|done].
  unfold appended. destruct (outcome update env).
  - by apply answers_follow_reply.
  - by apply answers_follow_user.
Qed.

Lemma answers_bounded (b : bool) (ms : list BaseMessage) :
  answers_follow b ms = true →
  (assistant_count ms ≤ human_count ms + (if b then 1 else 0))%nat.
Proof.
  unfold assistant_count, human_count.
  revert b. induction ms as [|m ms IH]; intros b; cbn [answers_follow]; [cbn; lia|].
  rewrite !filter_cons_length. destruct m as [[] c]; cbn [type].
  - done.
  - intros H%IH. rewrite decide_False, decide_True by done. lia.
  - intros [-> H%IH]%andb_true_iff. rewrite decide_True, decide_False by done.
    cbn in *. lia.
Qed.

(** X5: in every state the bot reaches from its start, each thread's stored
    history has no system message, every assistant message in it comes
    directly after a user message, and so it never holds more assistant
    messages than user messages. *)
Theorem answers_follow_questions (evs : list Inbound) (w : World) (tid : string) :
  answers_follow false (stored_messages tid (exec_all evs (initial w))) = true
  ∧ (assistant_count (stored_messages tid (exec_all evs (initial w)))
     ≤ human_count (stored_messages tid (exec_all evs (initial w))))%nat.
Proof.
  assert (H : answers_follow false (stored_messages tid (exec_all evs (initial w))) = true).
  { assert (H0 : answers_follow false (stored_messages tid (initial w)) = true)
      by reflexivity.
    revert H0. generalize (initial w).
    induction evs as [|ev evs IH]; intros env H0; cbn [exec_all]; [done|].
    apply IH. destruct ev as [name update|update].
    - unfold stored_messages. rewrite exec_command. exact H0.
    - by apply answers_follow_handle_message. }
  split; [exact H|]. apply answers_bounded in H. lia.
Qed.

Lemma threads_consistent_dispatch (ev : Inbound) (env : Env) :
  threads_consistent env → threads_consistent (exec (dispatch ev) env).
Proof.
  intros Hinv. destruct ev as [name update|update].
  - unfold threads_consistent. rewrite exec_command. exact Hinv.
  - cbn [dispatch]. intros tid st. rewrite memory_handle_message.
    destruct (decide (thread_of update = tid)) as [<-|Hne].
    + rewrite lookup_insert_eq. intros [= <-]. cbn [user_id messages].
      split; [done|]. unfold appended. by destruct (stored_messages _ _).
    + rewrite lookup_insert_ne by done. apply Hinv.
Qed.

(** X6: in every state the bot reaches from its start, the state stored
    under a thread id carries that id as its [user_id] and holds at least one
    message: no thread is ever stored empty or under another sender's key. *)
Theorem stored_threads_consistent (evs : list Inbound) (w : World)
    (tid : string) (st : AgentState) :
  memory (exec_all evs (initial w)) !! tid = Some st →
  user_id st = tid ∧ messages st ≠ [].
Proof.
  assert (H0 : threads_consistent (initial w)).
  { intros t s. unfold initial. cbn [memory]. by rewrite lookup_empty. }
  revert H0. generalize (initial w).
  induction evs as [|ev evs IH]; intros env H0; cbn [exec_all]; [apply H0|].
  apply IH. by apply threads_consistent_dispatch.
Qed.

(** ** Context across turns *)




(** ** Telegram's user data *)

Lemma user_data_blank_dispatch (ev : Inbound) (env : Env) :
  user_data_blank env → user_data_blank (exec (dispatch ev) env).
Proof.
  intros Hinv. destruct ev as [name update|update].
  - unfold user_data_blank. rewrite exec_command. cbn [user_data].
    destruct (String.eqb (lower name) "clear"); [|exact Hinv].
    intros uid d. destruct (decide (effective_user update = uid)) as [<-|Hne].
    + rewrite lookup_insert_eq. by intros [= <-].
    + rewrite lookup_insert_ne by done. apply Hinv.
  - unfold user_data_blank. cbn [dispatch]. by rewrite user_data_handle_message.
Qed.

(** X10: no handler ever stores anything in Telegram's [user_data]: in every
    state the bot reaches from its start, every entry of [user_data] is an
    empty dict, so the dict that /clear empties never holds conversation
    history. *)
Theorem user_data_never_filled (evs : list Inbound) (w : World)
    (uid : Z) (d : gmap string string) :
  user_data (exec_all evs (initial w)) !! uid = Some d → d = ∅.
Proof.
  assert (H0 : user_data_blank (initial w)).
  { intros u x. unfold initial. cbn [user_data]. by rewrite lookup_empty. }
  revert uid d. change (user_data_blank (exec_all evs (initial w))).
  revert H0. generalize (initial w).
  induction evs as [|ev evs IH]; intros env H0; cbn [exec_all]; [done|].
  apply IH. by apply user_data_blank_dispatch.
Qed.

(** X11: an event changes at most the sender's own entry of [user_data]:
    every other user's entry is as before, for texts and for every command;
    and after /clear the sender's entry is the empty dict. *)
Theorem user_data_touched_only_by_sender (ev : Inbound) (env : Env) :
  delete (sender ev) (user_data (exec (dispatch ev) env))
    = delete (sender ev) (user_data env)
  ∧ (∀ update, ev = Command "clear" update →
       user_data (exec (dispatch ev) env) !! effective_user update = Some ∅).
Proof.
  split.
  - destruct ev as [name update|update].
    + rewrite exec_command. cbn [user_data sender update_of].
      destruct (String.eqb (lower name) "clear"); [|done]. apply delete_insert_eq.
    + cbn [dispatch]. by rewrite user_data_handle_message.
  - intros update ->. rewrite exec_command. cbn [user_data].
    change (lower "clear" =? "clear")%string with true. cbn. apply lookup_insert_eq.
Qed.

(** ** Start-up *)

(** X12: a token that is present but empty counts as missing: [main] prints
    its three lines of explanation and performs no other action. *)
Theorem main_with_empty_token (environ : gmap string string) (env : Env) :
  environ !! "TELEGRAM_BOT_TOKEN" = Some "" →
  new_events env (exec (main environ) env)
    = [Print "❌ Error: TELEGRAM_BOT_TOKEN no está configurado en el archivo .env";
       Print "Por favor, añade tu token de Telegram al archivo .env:";
       Print "TELEGRAM_BOT_TOKEN=tu_token_aquí"]
  ∧ startup_actions (new_events env (exec (main environ) env)) = [].
Proof.
  intros Htok.
  assert (Heq : new_events env (exec (main environ) env)
    = [Print "❌ Error: TELEGRAM_BOT_TOKEN no está configurado en el archivo .env";
       Print "Por favor, añade tu token de Telegram al archivo .env:";
       Print "TELEGRAM_BOT_TOKEN=tu_token_aquí"]).
  { apply new_events_app. unfold exec, main. rewrite Htok. cbn [truthy negb String.eqb].
    unfold print, emit. unfold_monad. cbn [snd memory user_data world trace].
    rewrite <- !app_assoc. reflexivity. }
  split; [exact Heq|]. rewrite Heq. reflexivity.
Qed.

(** X13: with a token that is not empty, [main] builds the application with
    exactly that token, registers the handlers for /start, /clear, /help and
    plain text in that order, then the error handler, and starts polling as
    its last action; it touches neither the checkpointer nor the completion
    service. *)
Theorem main_with_token_starts_bot (environ : gmap string string) (token : string)
    (env : Env) :
  environ !! "TELEGRAM_BOT_TOKEN" = Some token →
  token ≠ "" →
  startup_actions (new_events env (exec (main environ) env))
    = [BuildApplication token;
       AddHandler (CommandHandler "start" start_command_h);
       AddHandler (CommandHandler "clear" clear_command_h);
       AddHandler (CommandHandler "help" help_command_h);
       AddHandler (MessageHandler_text_not_command handle_message_h);
       AddErrorHandler;
       RunPolling]
  ∧ last (trace (exec (main environ) env)) = Some RunPolling
  ∧ memory (exec (main environ) env) = memory env
  ∧ world (exec (main environ) env) = world env.
Proof.
  intros Htok Hne.
  assert (Htruthy : truthy (Some token) = true).
  { cbn [truthy]. apply negb_true_iff. by apply String.eqb_neq. }
  assert (Heq : exec (main environ) env
    = mkEnv (memory env) (user_data env) (world env)
        (trace env ++
         [Print "🚀 Iniciando bot de Telegram con LangGraph...";
          Print "📊 LangSmith está configurado para observabilidad";
          Print "🧠 Usando Gemini 2.5-flash como modelo";
          BuildApplication token;
          AddHandler (CommandHandler "start" start_command_h);
          AddHandler (CommandHandler "clear" clear_command_h);
          AddHandler (CommandHandler "help" help_command_h);
          AddHandler (MessageHandler_text_not_command handle_message_h);
          AddErrorHandler;
          Print "✅ Bot iniciado. Presiona Ctrl+C para detener.";
          RunPolling])).
  { unfold exec, main. rewrite Htok, Htruthy.
    cbv [negb default mbind M_bind bind print emit snd memory user_data world trace].
    f_equal. rewrite <- !app_assoc. reflexivity. }
  rewrite Heq. cbn [memory world trace].
  split; [|split; [|split]]; [| |reflexivity|reflexivity].
  - erewrite new_events_app by reflexivity. reflexivity.
  - rewrite last_app. reflexivity.
Qed.

(** ** The node and the reducer *)

(** X14: the node hands back only the new reply, so applying its write
    through the [add] reducer extends the state it was given by exactly one
    assistant message and leaves [user_id] alone: the history is not
    duplicated.  The node itself makes one request, whose context is the
    system instruction followed by the given messages, and never writes to
    the checkpointer, whether the completion succeeds or fails. *)
Theorem process_message_adds_one_reply (st : AgentState) (env : Env) :
  let env' := snd (process_message st env) in
  requests (new_events env env') = [[system_message] ++ messages st]
  ∧ memory env' = memory env
  ∧ match fst (process_message st env) with
    | Return u =>
        ∃ c, fst (llm_invoke ([system_message] ++ messages st) (world env)) = Return c
             ∧ apply_update st u = mkState (messages st ++ [AIMessage c]) (user_id st)
    | Raise e =>
        fst (llm_invoke ([system_message] ++ messages st) (world env)) = Raise e
    end.
Proof.
  intros env'. unfold env'. rewrite process_message_eq.
  destruct (llm_invoke _ _) as [[c|e] w]; cbn [fst snd memory].
  - split; [|split; [done|]].
    + erewrite new_events_app by reflexivity. reflexivity.
    + exists c. split; reflexivity.
  - split; [|split; [done|done]].
    erewrite new_events_app by reflexivity. reflexivity.
Qed.

(** * When Telegram refuses a call *)

(** ** What one event does *)

Lemma call_eq (ev : Event) (env : Env) :
  call ev env =
  match refuses ev env with
  | Some e => (Raise e, env)
  | None => (Return (), log [ev] env)
  end.
Proof. unfold call. destruct (refuses ev env); reflexivity. Qed.

Lemma send_notice_eq (update : Update) (e : Exception) (env : Env) :
  send_notice update e env
  = (fst (notice_events update e env), log (snd (notice_events update e env)) env).
Proof.
  unfold send_notice, notice_events, reply_text_net, print. unfold_monad.
  cbn [emit]. fold (log [Print ("Error procesando mensaje: " +:+ str_exc e)] env).
  rewrite call_eq. destruct (refuses _ _); cbn [fst snd]; [reflexivity|].
  unfold log. cbn [memory user_data world trace]. by rewrite <- app_assoc.
Qed.

Lemma after_invoke_eq (update : Update) (env : Env) :
  invoke agent (mkUpdate (Some [HumanMessage (message_text update)]) (Some (thread_of update)))
    (thread_of update) (log [SendChatAction (effective_chat update) "typing"] env)
  = (match outcome update env with
     | Return c =>
         Return (mkState (stored_messages (thread_of update) env
                            ++ [HumanMessage (message_text update); AIMessage c])
                         (thread_of update))
     | Raise e => Raise e
     end,
     after_invoke update env).
Proof.
  rewrite invoke_eq. cbv zeta. unfold after_invoke, appended, outcome, turn_context.
  change (stored_messages (thread_of update)
            (log [SendChatAction (effective_chat update) "typing"] env))
    with (stored_messages (thread_of update) env).
  cbn [log world memory user_data trace].
  destruct (llm_invoke _ _) as [[c|e] w]; cbn [fst snd]; rewrite <- app_assoc; reflexivity.
Qed.

(** The handler, by what Telegram refuses. *)
Lemma handle_message_net_eq (update : Update) (env : Env) :
  handle_message_net update env =
  match refuses (SendChatAction (effective_chat update) "typing") env with
  | Some e => (Raise e, env)
  | None =>
      (fst (reply_events update env),
       log (snd (reply_events update env)) (after_invoke update env))
  end.
Proof.
  unfold handle_message_net, send_chat_action_net.
  unfold mbind at 1. unfold M_bind at 1. unfold bind at 1. rewrite call_eq.
  destruct (refuses _ env) as [e0|]; [reflexivity|].
  unfold try_except.
  fold (send_notice update).
  unfold mbind at 1. unfold M_bind at 1. unfold bind at 1.
  change (str (effective_user update)) with (thread_of update).
  rewrite after_invoke_eq. unfold reply_events.
  destruct (outcome update env) as [c|e].
  - unfold mbind, M_bind, bind.
    change [HumanMessage (message_text update); AIMessage c]
      with ([HumanMessage (message_text update)] ++ [AIMessage c]).
    rewrite app_assoc, (last_content_snoc (empty "")). cbn [content AIMessage].
    unfold reply_text_net. rewrite call_eq.
    destruct (refuses _ (after_invoke update env)) as [e1|]; [|reflexivity].
    apply send_notice_eq.
  - apply send_notice_eq.
Qed.

Lemma notice_events_spec (update : Update) (e : Exception) (env : Env) :
  requests (snd (notice_events update e env)) = []
  ∧ node_runs (snd (notice_events update e env)) = []
  ∧ ((fst (notice_events update e env) = Return ()
      ∧ replies_to (snd (notice_events update e env))
        = [(effective_chat update, error_notice e)])
     ∨ (∃ e', fst (notice_events update e env) = Raise e'
              ∧ replies_to (snd (notice_events update e env)) = [])).
Proof.
  unfold notice_events. destruct (refuses _ _) as [e'|]; cbn [fst snd].
  - repeat split. right. by exists e'.
  - repeat split. by left.
Qed.

Lemma reply_events_spec (update : Update) (env : Env) :
  requests (snd (reply_events update env)) = []
  ∧ node_runs (snd (reply_events update env)) = []
  ∧ ((fst (reply_events update env) = Return ()
      ∧ ∃ text, replies_to (snd (reply_events update env)) = [(effective_chat update, text)]
                ∧ (outcome update env = Return text ∨ ∃ e, text = error_notice e))
     ∨ (∃ e', fst (reply_events update env) = Raise e'
              ∧ replies_to (snd (reply_events update env)) = [])).
Proof.
  unfold reply_events. destruct (outcome update env) as [c|e].
  - destruct (refuses _ _) as [e1|].
    + destruct (notice_events_spec update e1 (after_invoke update env))
        as (Hr & Hn & [[Hok Hrep]|Hraise]).
      * split; [done|]. split; [done|]. left. split; [done|].
        exists (error_notice e1). split; [done|]. right. by exists e1.
      * split; [done|]. split; [done|]. by right.
    + cbn [fst snd]. repeat split. left. split; [done|]. exists c. split; [done|]. by left.
  - destruct (notice_events_spec update e (after_invoke update env))
      as (Hr & Hn & [[Hok Hrep]|Hraise]).
    + split; [done|]. split; [done|]. left. split; [done|].
      exists (error_notice e). split; [done|]. right. by exists e.
    + split; [done|]. split; [done|]. by right.
Qed.

Lemma replies_sent_to (tr : list Event) : replies_sent tr = snd <$> replies_to tr.
Proof.
  induction tr as [|ev tr IH]; [done|].
  unfold replies_sent, replies_to in *. cbn [omap list_omap].
  destruct ev; cbn; by rewrite ?IH.
Qed.

Lemma new_events_log (env base : Env) (tail : list Event) :
  trace env `prefix_of` trace base →
  new_events env (log tail base) = new_events env base ++ tail.
Proof.
  intros [k Hk]. unfold new_events, log. cbn [trace]. rewrite Hk.
  rewrite <- app_assoc, !drop_app_length. reflexivity.
Qed.

Lemma new_events_self (env : Env) : new_events env env = [].
Proof. unfold new_events. apply drop_all. Qed.

Lemma new_events_after_invoke (update : Update) (env : Env) :
  new_events env (after_invoke update env)
  = [SendChatAction (effective_chat update) "typing"; NodeRun "process";
     LlmInvoke (turn_context update env)].
Proof. apply new_events_app. reflexivity. Qed.

Lemma memory_after_invoke (update : Update) (env : Env) :
  memory (after_invoke update env) = memory (exec (handle_message update) env).
Proof. by rewrite memory_handle_message. Qed.

(** With a Telegram that refuses nothing, the handlers are the handlers of
    the first part. *)
Lemma process_update_reliable (ev : Inbound) (env : Env) :
  (∀ ev' env', refuses ev' env' = None) →
  process_update ev env = dispatch ev env.
Proof.
  intros Hrel. unfold process_update, try_except.
  destruct ev as [name update|update]; cbn [dispatch_net dispatch].
  - unfold start_command_net, clear_command_net, help_command_net,
      start_command, clear_command, help_command, reply_text_net, reply_text.
    destruct (String.eqb (lower name) "start");
      [|destruct (String.eqb (lower name) "clear");
        [|destruct (String.eqb (lower name) "help")]];
      unfold_monad; unfold user_data_clear; rewrite ?call_eq, ?Hrel; reflexivity.
  - rewrite handle_message_net_eq, Hrel, handle_message_eq. cbv zeta.
    unfold reply_events, notice_events, after_invoke, appended, outcome.
    destruct (llm_invoke _ _) as [[c|e] w]; cbn [fst snd]; rewrite !Hrel;
      cbn [fst snd log memory user_data world trace]; reflexivity.
Qed.

Lemma log_log (evs evs' : list Event) (env : Env) :
  log evs' (log evs env) = log (evs ++ evs') env.
Proof. unfold log. cbn [memory user_data world trace]. by rewrite app_assoc. Qed.

(** A text event as the application processes it. *)
Lemma process_update_text (update : Update) (env : Env) :
  exec (process_update (Text update)) env =
  match refuses (SendChatAction (effective_chat update) "typing") env with
  | Some e => log [Print ("Error: " +:+ str_exc e)] env
  | None =>
      log (snd (reply_events update env) ++
           match fst (reply_events update env) with
           | Return _ => []
           | Raise e => [Print ("Error: " +:+ str_exc e)]
           end)
          (after_invoke update env)
  end.
Proof.
  unfold exec, process_update, try_except. cbn [dispatch_net].
  rewrite handle_message_net_eq.
  destruct (refuses _ env) as [e0|]; [reflexivity|].
  cbn [fst snd]. destruct (fst (reply_events update env)) as [[]|e1]; cbn [snd].
  - by rewrite app_nil_r.
  - unfold error_handler, print, emit. cbn [snd]. fold (log [Print ("Error: " +:+ str_exc e1)]
      (log (reply_events update env).2 (after_invoke update env))).
    apply log_log.
Qed.

(** A command as the application processes it. *)
Lemma process_update_command (name : string) (update : Update) (env : Env) :
  exec (process_update (Command name update)) env =
  match command_reply name with
  | None => env
  | Some (text, mode) =>
      let base :=
        mkEnv (memory env)
          (if String.eqb (lower name) "clear"
           then <[effective_user update := ∅]> (user_data env) else user_data env)
          (world env) (trace env) in
      match refuses (ReplyText (effective_chat update) text mode) base with
      | None => log [ReplyText (effective_chat update) text mode] base
      | Some e => log [Print ("Error: " +:+ str_exc e)] base
      end
  end.
Proof.
  unfold exec, process_update, try_except, command_reply. cbn [dispatch_net].
  unfold start_command_net, clear_command_net, help_command_net, reply_text_net.
  destruct (String.eqb (lower name) "start") eqn:Hs.
  { apply String.eqb_eq in Hs. rewrite Hs. cbn [String.eqb Ascii.eqb Bool.eqb]. cbv zeta.
    rewrite call_eq. change ("start" =? "clear")%string with false. cbv iota.
    replace (mkEnv (memory env) (user_data env) (world env) (trace env)) with env
      by (by destruct env).
    destruct (refuses _ env); reflexivity. }
  destruct (String.eqb (lower name) "clear") eqn:Hc.
  { unfold_monad. unfold user_data_clear. rewrite call_eq. cbv zeta.
    destruct (refuses _ _); reflexivity. }
  destruct (String.eqb (lower name) "help") eqn:Hh; [|reflexivity].
  rewrite call_eq. cbv zeta.
  replace (mkEnv (memory env) (user_data env) (world env) (trace env)) with env
    by (by destruct env).
  destruct (refuses _ env); reflexivity.
Qed.

Lemma memory_process_update (ev : Inbound) (env : Env) :
  memory (exec (process_update ev) env) =
  match ev with
  | Text update =>
      if typing_accepted update env then memory (after_invoke update env) else memory env
  | Command _ _ => memory env
  end.
Proof.
  destruct ev as [name update|update].
  - rewrite process_update_command.
    destruct (command_reply name) as [[text mode]|]; [|done].
    cbv zeta. by destruct (refuses _ _).
  - rewrite process_update_text. unfold typing_accepted.
    by destruct (refuses _ env).
Qed.

Lemma stored_process_update (ev : Inbound) (env : Env) (tid : string) :
  stored_messages tid (exec (process_update ev) env) =
  match ev with
  | Text update =>
      if bool_decide (tid = thread_of update) && typing_accepted update env
      then stored_messages tid env ++ appended update env
      else stored_messages tid env
  | Command _ _ => stored_messages tid env
  end.
Proof.
  unfold stored_messages at 1. rewrite memory_process_update.
  destruct ev as [name update|update]; [done|].
  destruct (typing_accepted update env); [|by rewrite andb_false_r].
  rewrite andb_true_r. unfold after_invoke. cbn [memory].
  case_bool_decide as Htid.
  - subst tid. by rewrite lookup_insert_eq.
  - by rewrite lookup_insert_ne.
Qed.

Lemma requests_process_update (ev : Inbound) (env : Env) :
  requests (trace (exec (process_update ev) env)) =
  requests (trace env) ++
  match ev with
  | Text update => if typing_accepted update env then [turn_context update env] else []
  | Command _ _ => []
  end.
Proof.
  destruct ev as [name update|update].
  - rewrite process_update_command.
    destruct (command_reply name) as [[text mode]|]; [|by rewrite app_nil_r].
    cbv zeta. destruct (refuses _ _); cbn [log trace]; by rewrite requests_app.
  - rewrite process_update_text. unfold typing_accepted.
    destruct (refuses _ env) as [e0|].
    + cbn [log trace]. by rewrite requests_app.
    + cbn [log trace after_invoke]. rewrite !requests_app.
      destruct (reply_events_spec update env) as (Hr & _ & _). rewrite Hr.
      rewrite <- app_assoc. f_equal. cbn [app].
      destruct (fst (reply_events update env)); reflexivity.
Qed.

Lemma replies_to_app (tr tr' : list Event) :
  replies_to (tr ++ tr') = replies_to tr ++ replies_to tr'.
Proof. apply omap_app. Qed.

Lemma replies_process_update (ev : Inbound) (env : Env) :
  (length (replies_sent (trace (exec (process_update ev) env)))
   ≤ length (replies_sent (trace env)) + (if gets_reply ev then 1 else 0))%nat.
Proof.
  destruct ev as [name update|update]; cbn [gets_reply].
  - rewrite process_update_command.
    destruct (command_reply name) as [[text mode]|]; [|cbn; lia].
    cbv zeta. destruct (refuses _ _); cbn [log trace];
      rewrite replies_sent_app, length_app; cbn; lia.
  - rewrite process_update_text. destruct (refuses _ env) as [e0|].
    + cbn [log trace]. rewrite replies_sent_app, length_app. cbn. lia.
    + cbn [log trace after_invoke]. rewrite !replies_sent_app, !length_app.
      rewrite (replies_sent_to (snd (reply_events update env))), length_fmap.
      destruct (reply_events_spec update env) as (_ & _ & [[Hok (t & Ht & _)]|(e' & He & Ht)]);
        rewrite Ht; [rewrite Hok|rewrite He]; cbn; lia.
Qed.

Lemma run_reliable (evs : list Inbound) (env : Env) :
  (∀ ev' env', refuses ev' env' = None) → run evs env = exec_all evs env.
Proof.
  intros Hrel. revert env. induction evs as [|ev evs IH]; intros env; [done|].
  cbn [run exec_all]. rewrite IH. unfold exec.
  by rewrite (process_update_reliable _ _ Hrel).
Qed.

(** ** A text event *)

(** X1: whatever Telegram refuses, a text event ends in one of two ways:
    the handler returns and exactly one reply has gone out, to the chat the
    text came from, which is the completion's text or an error notice; or the
    handler raises and no reply has gone out.  When Telegram refuses the
    typing action the handler raises at once: nothing is requested and
    nothing is stored.  When it accepts it, the completion service gets
    exactly one request, the system instruction in front of the sender's
    stored messages and the new text, and the thread is stored as with a
    Telegram that refuses nothing, whatever happens to the reply. *)
Theorem text_event_answered_or_raises (update : Update) (env : Env) :
  ((fst (handle_message_net update env) = Return ()
    ∧ ∃ text,
        replies_to (new_events env (exec (handle_message_net update) env))
          = [(effective_chat update, text)]
        ∧ (fst (llm_invoke
                  (system_message ::
                     stored_messages (str (effective_user update)) env
                     ++ [HumanMessage (message_text update)])
                  (world env)) = Return text
           ∨ ∃ e, text = error_prefix +:+ str_exc e))
   ∨ (∃ e, fst (handle_message_net update env) = Raise e
           ∧ replies_to (new_events env (exec (handle_message_net update) env)) = []))
  ∧ match refuses (SendChatAction (effective_chat update) "typing") env with
    | Some e => handle_message_net update env = (Raise e, env)
    | None =>
        requests (new_events env (exec (handle_message_net update) env))
          = [system_message ::
               stored_messages (str (effective_user update)) env
               ++ [HumanMessage (message_text update)]]
        ∧ node_runs (new_events env (exec (handle_message_net update) env)) = ["process"]
        ∧ memory (exec (handle_message_net update) env)
          = memory (exec (handle_message update) env)
    end.
Proof.
  unfold exec. rewrite handle_message_net_eq.
  destruct (refuses _ env) as [e0|]; cbn [fst snd].
  - split; [|reflexivity]. right. exists e0. by rewrite new_events_self.
  - rewrite new_events_log by (by eexists).
    rewrite new_events_after_invoke.
    rewrite replies_to_app, requests_app.
    unfold node_runs. rewrite omap_app. fold (node_runs (snd (reply_events update env))).
    destruct (reply_events_spec update env) as (Hr & Hn & Hcases).
    rewrite Hr, Hn. split.
    + destruct Hcases as [[Hok (t & Ht & Hsrc)]|(e' & He & Ht)].
      * left. split; [done|]. exists t. split; [by rewrite Ht|]. exact Hsrc.
      * right. exists e'. split; [done|]. by rewrite Ht.
    + repeat split. cbn [log memory]. apply memory_after_invoke.
Qed.

(** X15: when the completion succeeds but Telegram refuses its text (an
    empty text, for instance) and accepts the notice, the handler returns,
    the one reply the user gets is the error notice carrying Telegram's
    error, and the assistant message the user never received is stored as the
    last message of the thread. *)
Theorem refused_reply_gets_notice (update : Update) (env : Env) (c : string)
    (e : Exception) :
  refuses (SendChatAction (effective_chat update) "typing") env = None →
  fst (llm_invoke
         (system_message ::
            stored_messages (str (effective_user update)) env
            ++ [HumanMessage (message_text update)])
         (world env)) = Return c →
  (∀ env0, refuses (ReplyText (effective_chat update) c None) env0 = Some e) →
  (∀ env0, refuses (ReplyText (effective_chat update) (error_prefix +:+ str_exc e) None) env0
           = None) →
  fst (handle_message_net update env) = Return ()
  ∧ replies_to (new_events env (exec (handle_message_net update) env))
    = [(effective_chat update, error_prefix +:+ str_exc e)]
  ∧ last (stored_messages (str (effective_user update))
            (exec (handle_message_net update) env))
    = Some (AIMessage c).
Proof.
  intros Htyping Hok Hrefused Hnotice.
  assert (Hout : outcome update env = Return c) by exact Hok.
  unfold exec. rewrite handle_message_net_eq, Htyping. cbn [fst snd].
  assert (Hre : reply_events update env
                = (Return (),
                   [Print ("Error procesando mensaje: " +:+ str_exc e);
                    ReplyText (effective_chat update) (error_notice e) None])).
  { unfold reply_events. rewrite Hout, Hrefused. unfold notice_events.
    unfold error_notice. by rewrite Hnotice. }
  rewrite Hre. cbn [fst snd]. split; [done|]. split.
  - rewrite new_events_log by (by eexists). rewrite new_events_after_invoke. reflexivity.
  - unfold stored_messages. cbn [log memory after_invoke].
    change (str (effective_user update)) with (thread_of update).
    rewrite lookup_insert_eq. cbn [messages]. unfold appended. rewrite Hout.
    change (HumanMessage (message_text update) :: [AIMessage c])
      with ([HumanMessage (message_text update)] ++ [AIMessage c]).
    by rewrite app_assoc, last_snoc.
Qed.

(** ** A command *)


(** ** Counting over a run *)

Lemma count_texts_cons (ev : Inbound) (evs : list Inbound) :
  count_texts (ev :: evs) = ((if is_text ev then 1 else 0) + count_texts evs)%nat.
Proof.
  unfold count_texts. rewrite filter_cons_length.
  destruct (is_text ev); by case_decide.
Qed.

Lemma count_replied_cons (ev : Inbound) (evs : list Inbound) :
  count_replied (ev :: evs) = ((if gets_reply ev then 1 else 0) + count_replied evs)%nat.
Proof.
  unfold count_replied. rewrite filter_cons_length.
  destruct (gets_reply ev); by case_decide.
Qed.

(** X3: over any run of inbound events, whatever Telegram refuses, the
    completion service never gets more than one request per text event and
    the users never get more than one reply per text event or handled
    command.  With a Telegram that refuses nothing there is exactly one
    request per text event, and exactly one reply per text event or handled
    command, failed completions included. *)
Theorem one_request_and_one_reply_per_event (evs : list Inbound) (env : Env) :
  (length (requests (trace (run evs env)))
   ≤ length (requests (trace env)) + count_texts evs)%nat
  ∧ (length (replies_sent (trace (run evs env)))
     ≤ length (replies_sent (trace env)) + count_replied evs)%nat
  ∧ ((∀ ev' env', refuses ev' env' = None) →
       length (requests (trace (run evs env)))
         = (length (requests (trace env)) + count_texts evs)%nat
       ∧ length (replies_sent (trace (run evs env)))
         = (length (replies_sent (trace env)) + count_replied evs)%nat).
Proof.
  split; [|split].
  - revert env. induction evs as [|ev evs IH]; intros env; cbn [run]; [cbn; lia|].
    etrans; [apply IH|]. rewrite requests_process_update, length_app, count_texts_cons.
    destruct ev as [name update|update]; cbn [is_text length]; [lia|].
    destruct (typing_accepted update env); cbn [length]; lia.
  - revert env. induction evs as [|ev evs IH]; intros env; cbn [run]; [cbn; lia|].
    etrans; [apply IH|]. rewrite count_replied_cons.
    pose proof (replies_process_update ev env). lia.
  - intros Hrel. rewrite (run_reliable _ _ Hrel).
    clear Hrel. revert env. induction evs as [|ev evs IH]; intros env; cbn [exec_all].
    { cbn. lia. }
    destruct (IH (exec (dispatch ev) env)) as [IH1 IH2].
    rewrite IH1, IH2, requests_dispatch, replies_dispatch,
      count_texts_cons, count_replied_cons. lia.
Qed.

Lemma texts_from_cons (uid : Z) (ev : Inbound) (evs : list Inbound) :
  texts_from uid (ev :: evs)
  = ((if is_text ev && bool_decide (sender ev = uid) then 1 else 0)
     + texts_from uid evs)%nat.
Proof.
  unfold texts_from. rewrite filter_cons_length.
  destruct (is_text ev); cbn [andb].
  - case_bool_decide as Hs; case_decide as Hd; [done|by destruct Hd|by destruct Hd|done].
  - case_decide as Hd; [by destruct Hd|done].
Qed.

(** X4: over any run of inbound events, whatever Telegram refuses, the
    number of user messages stored for a sender grows by exactly the number
    of that sender's text events whose typing action Telegram accepted: such
    a text is stored even when its completion or its reply fails; a text
    whose typing action is refused is not stored; commands add nothing and
    other senders' texts are stored elsewhere.  So it never grows by more
    than the number of texts the sender sent. *)
Theorem user_messages_counted (uid : Z) (evs : list Inbound) (env : Env) :
  human_count (stored_messages (str uid) (run evs env))
    = (human_count (stored_messages (str uid) env) + texts_reaching uid evs env)%nat
  ∧ (texts_reaching uid evs env ≤ texts_from uid evs)%nat.
Proof.
  split.
  - revert env. induction evs as [|ev evs IH]; intros env; cbn [run texts_reaching].
    { lia. }
    rewrite IH, stored_process_update. destruct ev as [name update|update]; [lia|].
    destruct (typing_accepted update env); rewrite ?andb_false_r, ?andb_true_r; [|lia].
    destruct (decide (effective_user update = uid)) as [Hu|Hu].
    + rewrite (bool_decide_eq_true_2 (str uid = thread_of update))
        by (by apply thread_of_inj).
      rewrite (bool_decide_eq_true_2 (effective_user update = uid)) by done.
      rewrite human_count_app, human_count_appended. lia.
    + rewrite (bool_decide_eq_false_2 (str uid = thread_of update)).
      * rewrite (bool_decide_eq_false_2 (effective_user update = uid)) by done. lia.
      * intros Heq. apply Hu. symmetry. by apply thread_of_inj.
  - revert env. induction evs as [|ev evs IH]; intros env; cbn [texts_reaching].
    { cbn. lia. }
    rewrite texts_from_cons. specialize (IH (exec (process_update ev) env)).
    destruct ev as [name update|update]; unfold sender; cbn [is_text andb update_of]; [lia|].
    case_bool_decide; cbn [andb]; cbv iota; [|lia].
    destruct (typing_accepted update env); cbv iota; lia.
Qed.

(** X7: whatever Telegram refuses, an event creates a thread in the
    checkpointer only when it is a text event whose typing action Telegram
    accepted, and then it is the thread of the text's sender; commands and
    refused texts create none.  So a thread that exists after a run existed
    before it or belongs to the sender of one of the run's text events. *)
Theorem threads_created_by_texts (ev : Inbound) (evs : list Inbound) (env : Env)
    (tid : string) :
  (is_Some (memory (exec (process_update ev) env) !! tid)
   ↔ is_Some (memory env !! tid)
     ∨ ∃ update, ev = Text update ∧ str (effective_user update) = tid
                 ∧ refuses (SendChatAction (effective_chat update) "typing") env = None)
  ∧ (is_Some (memory (run evs env) !! tid) →
     is_Some (memory env !! tid)
     ∨ ∃ update, Text update ∈ evs ∧ str (effective_user update) = tid).
Proof.
  assert (Hstep : ∀ ev env,
    is_Some (memory (exec (process_update ev) env) !! tid)
    ↔ is_Some (memory env !! tid)
      ∨ ∃ update, ev = Text update ∧ str (effective_user update) = tid
                  ∧ refuses (SendChatAction (effective_chat update) "typing") env = None).
  { clear ev env. intros ev env. rewrite memory_process_update.
    destruct ev as [name update|update].
    - split; [by left|]. by intros [H|(u & [=] & _)].
    - unfold typing_accepted.
      destruct (refuses _ env) as [e0|] eqn:Href.
      + split; [by left|]. intros [H|(u & [= <-] & _ & Hu)]; [done|congruence].
      + unfold after_invoke. cbn [memory]. split.
        * intros H. destruct (decide (thread_of update = tid)) as [Heq|Hne].
          -- right. by exists update.
          -- left. by rewrite lookup_insert_ne in H.
        * intros [H|(u & [= <-] & Hu & _)].
          -- destruct (decide (thread_of update = tid)) as [<-|Hne].
             ++ by rewrite lookup_insert_eq.
             ++ by rewrite lookup_insert_ne.
          -- change (str (effective_user update)) with (thread_of update) in Hu.
             rewrite <- Hu. by rewrite lookup_insert_eq. }
  split; [apply Hstep|].
  clear ev. revert env. induction evs as [|ev evs IH]; intros env; cbn [run]; [by left|].
  intros [H|(u & Hin & Hu)]%IH.
  - apply Hstep in H as [H|(u & -> & Hu & _)]; [by left|].
    right. exists u. split; [apply elem_of_cons; by left|done].
  - right. exists u. split; [apply elem_of_cons; by right|done].
Qed.

End Agent.

(** * The model on concrete runs *)

Example str_of_ids : str 42 = "42" ∧ str 0 = "0" ∧ str (-7) = "-7".
Proof. repeat split. Qed.

(** One successful turn on a new thread stores the user message and the reply,
    and sends the reply to the sender's chat. *)
Example hello_turn :
  let env := exec (handle_message scripted (sample_update "hello"))
               (initial (World := Script) [Return "hi!"]) in
  stored_messages "42" env = [HumanMessage "hello"; AIMessage "hi!"]
  ∧ replies_sent (trace env) = ["hi!"]
  ∧ world env = [].
Proof. vm_compute. repeat split. Qed.

(** With a token in the environment [main] builds the application, registers
    the four handlers and the error handler, and starts polling. *)
Example main_with_token :
  omap (λ ev, if is_print ev then None else Some ev)
    (trace (exec (main {[ "TELEGRAM_BOT_TOKEN" := "123:abc" ]})
              (initial (World := Script) [])))
  = [BuildApplication "123:abc";
     AddHandler (CommandHandler "start" start_command_h);
     AddHandler (CommandHandler "clear" clear_command_h);
     AddHandler (CommandHandler "help" help_command_h);
     AddHandler (MessageHandler_text_not_command handle_message_h);
     AddErrorHandler; RunPolling].
Proof. vm_compute. reflexivity. Qed.

(** A command is matched whatever the case of its letters. *)
Example clear_in_capitals :
  replies_sent
    (trace (exec (dispatch scripted (Command "CLEAR" (sample_update "/CLEAR")))
              (initial (World := Script) [])))
  = [clear_reply].
Proof. vm_compute. reflexivity. Qed.

(** ** The /clear command *)

(** C1 (the code falls short of the claim): thread 42 holds the user message
    "hello" and the reply "hi!"; after the clear command the thread's stored
    messages are still those two, not the empty sequence, and the next turn's
    request context carries both in front of the new user message.
    [clear_command] empties Telegram's [user_data] and never touches the
    checkpointer's storage. *)
Theorem C1_clear_command_keeps_history :
  let env := exec_all scripted [Text (sample_update "hello")]
               (initial (World := Script) [Return "hi!"; Return "yo"]) in
  let env' := exec (dispatch scripted (Command "clear" (sample_update "/clear"))) env in
  thread_of (sample_update "/clear") = "42"
  ∧ stored_messages "42" env = [HumanMessage "hello"; AIMessage "hi!"]
  ∧ replies_sent (new_events env env') = [clear_reply]
  ∧ stored_messages "42" env' = [HumanMessage "hello"; AIMessage "hi!"]
  ∧ stored_messages "42" env' ≠ []
  ∧ requests (new_events env' (exec (handle_message scripted (sample_update "hey")) env'))
    = [[system_message; HumanMessage "hello"; AIMessage "hi!"; HumanMessage "hey"]].
Proof. vm_compute. repeat split; discriminate. Qed.

(** ** Witnesses and counterexamples *)

Lemma C2_witness :
  stored_messages "42"
    (exec_all scripted (Text <$> [sample_update "hello"; sample_update "hey"])
       (initial (World := Script) [Return "hi!"; Return "yo"]))
  = [HumanMessage "hello"; AIMessage "hi!"; HumanMessage "hey"; AIMessage "yo"].
Proof.
  refine (proj1 (C2_successful_turns_alternate scripted 42
                   [sample_update "hello"; sample_update "hey"] ["hi!"; "yo"]
                   (initial (World := Script) [Return "hi!"; Return "yo"]) _ _ _)).
  - repeat constructor.
  - reflexivity.
  - vm_compute. repeat split.
Defined.

Lemma C3_witness :
  stored_messages "42"
    (exec (handle_message scripted (sample_update "hello"))
       (initial (World := Script) [Raise timed_out; Return "yo"]))
  = [HumanMessage "hello"].
Proof.
  refine (proj1 (C3_failed_turn_keeps_user_message scripted
                   (sample_update "hello") (sample_update "hey")
                   (initial (World := Script) [Raise timed_out; Return "yo"])
                   timed_out _ _)).
  - reflexivity.
  - reflexivity.
Defined.

(** C5 (the claim as stated fails): two turns whose completion calls fail,
    one on a timeout and one on an exhausted quota, get different notices. *)
Lemma C5_counterexample :
  fails scripted (sample_update "hello") (initial (World := Script) [Raise timed_out]) timed_out
  ∧ fails scripted (sample_update "hello") (initial (World := Script) [Raise quota_exceeded])
      quota_exceeded
  ∧ replies_sent (trace (exec (handle_message scripted (sample_update "hello"))
                           (initial (World := Script) [Raise timed_out])))
    ≠ replies_sent (trace (exec (handle_message scripted (sample_update "hello"))
                             (initial (World := Script) [Raise quota_exceeded]))).
Proof. vm_compute. repeat split. discriminate. Qed.

Lemma C5_witness :
  replies_sent
    (new_events (initial (World := Script) [Raise timed_out])
       (exec (handle_message scripted (sample_update "hello"))
          (initial (World := Script) [Raise timed_out])))
  = [error_prefix +:+ "timed out"].
Proof.
  refine (proj1 (C5_failure_notice_carries_cause scripted
                   (sample_update "hello") (other_update "hola")
                   (initial (World := Script) [Raise timed_out])
                   (initial (World := Script) [Raise quota_exceeded])
                   timed_out quota_exceeded _ _)).
  - reflexivity.
  - reflexivity.
Defined.

(** C7 (the claim as stated fails): on a turn whose completion call times
    out the node runs once and the run ends, yet no assistant message has
    been appended for the inbound message. *)
Lemma C7_counterexample :
  let env := initial (World := Script) [Raise timed_out] in
  let env' := exec (invoke (agent scripted) (text_input "hello" "42") "42") env in
  node_runs (new_events env env') = ["process"]
  ∧ stored_messages "42" env' = [HumanMessage "hello"]
  ∧ assistant_count (stored_messages "42" env')
    ≠ S (assistant_count (stored_messages "42" env)).
Proof. vm_compute. repeat split. discriminate. Qed.

Lemma C8_witness :
  memory (initial (World := Script) [Return "hi!"]) !! thread_of (sample_update "hello") = None
  ∧ requests
      (new_events (initial (World := Script) [Return "hi!"])
         (exec (handle_message scripted (sample_update "hello"))
            (initial (World := Script) [Return "hi!"])))
    = [[system_message; HumanMessage "hello"]].
Proof.
  split; [reflexivity|].
  refine (proj1 (proj2 (proj2 (C8_unknown_thread_starts_empty scripted
                                 (sample_update "hello")
                                 (initial (World := Script) [Return "hi!"]) _)))).
  reflexivity.
Defined.

Lemma C9_witness :
  effective_user (other_update "hola") ≠ effective_user (sample_update "hello")
  ∧ thread_of (other_update "hola") ≠ thread_of (sample_update "hello")
  ∧ memory (exec (handle_message scripted (sample_update "hello"))
              (exec (handle_message scripted (other_update "hola"))
                 (initial (World := Script) [Return "que tal"; Return "hi!"]))) !! "7"
    = Some (mkState [HumanMessage "hola"; AIMessage "que tal"] "7").
Proof.
  assert (H : effective_user (other_update "hola") ≠ effective_user (sample_update "hello"))
    by discriminate.
  split; [exact H|].
  pose proof (C9_threads_isolated scripted (sample_update "hello") (other_update "hola")
                (exec (handle_message scripted (other_update "hola"))
                   (initial (World := Script) [Return "que tal"; Return "hi!"])) H)
    as (Hdist & Hmem & _).
  split; [exact Hdist|]. exact Hmem.
Defined.

Lemma C10_witness :
  (∅ : gmap string string) !! "TELEGRAM_BOT_TOKEN" = None
  ∧ Forall (λ ev, is_print ev = true)
      (new_events (initial (World := Script) [])
         (exec (main ∅) (initial (World := Script) []))).
Proof.
  split; [reflexivity|].
  refine (proj2 (C10_main_without_token ∅ (initial (World := Script) []) _)).
  reflexivity.
Defined.

(** ** Witnesses of the further properties *)

Lemma stored_threads_consistent_witness :
  user_id (mkState [HumanMessage "hello"; AIMessage "hi!"] "42") = "42".
Proof.
  refine (proj1 (stored_threads_consistent scripted [Text (sample_update "hello")]
                   [Return "hi!"] "42"
                   (mkState [HumanMessage "hello"; AIMessage "hi!"] "42") _)).
  vm_compute. reflexivity.
Defined.



Lemma user_data_never_filled_witness :
  user_data (exec_all scripted
               [Text (sample_update "hello"); Command "clear" (sample_update "/clear")]
               (initial (World := Script) [Return "hi!"])) !! 42 = Some ∅
  ∧ (∅ : gmap string string) = ∅.
Proof.
  assert (H : user_data (exec_all scripted
               [Text (sample_update "hello"); Command "clear" (sample_update "/clear")]
               (initial (World := Script) [Return "hi!"])) !! 42 = Some ∅)
    by (vm_compute; reflexivity).
  split; [exact H|].
  exact (user_data_never_filled scripted _ _ _ _ H).
Defined.

Lemma user_data_touched_only_by_sender_witness :
  user_data (exec (dispatch scripted (Command "clear" (sample_update "/clear")))
               (initial (World := Script) [])) !! 42 = Some ∅.
Proof.
  refine (proj2 (user_data_touched_only_by_sender scripted
                   (Command "clear" (sample_update "/clear"))
                   (initial (World := Script) [])) (sample_update "/clear") _).
  reflexivity.
Defined.

Lemma main_with_empty_token_witness :
  ({[ "TELEGRAM_BOT_TOKEN" := "" ]} : gmap string string) !! "TELEGRAM_BOT_TOKEN" = Some ""
  ∧ startup_actions
      (new_events (initial (World := Script) [])
         (exec (main {[ "TELEGRAM_BOT_TOKEN" := "" ]}) (initial (World := Script) [])))
    = [].
Proof.
  split; [reflexivity|].
  refine (proj2 (main_with_empty_token {[ "TELEGRAM_BOT_TOKEN" := "" ]}
                   (initial (World := Script) []) _)).
  reflexivity.
Defined.

Lemma main_with_token_starts_bot_witness :
  last (trace (exec (main {[ "TELEGRAM_BOT_TOKEN" := "123:abc" ]})
                 (initial (World := Script) [])))
  = Some RunPolling.
Proof.
  refine (proj1 (proj2 (main_with_token_starts_bot {[ "TELEGRAM_BOT_TOKEN" := "123:abc" ]}
                          "123:abc" (initial (World := Script) []) _ _))).
  - reflexivity.
  - discriminate.
Defined.

Lemma refused_reply_gets_notice_witness :
  replies_to
    (new_events (initial (World := Script) [Return ""])
       (exec (handle_message_net scripted
                (λ ev _, match ev with
                         | ReplyText _ EmptyString _ => Some empty_text
                         | _ => None
                         end)
                (sample_update "hello"))
          (initial (World := Script) [Return ""])))
  = [(42, error_prefix +:+ "Message text is empty")].
Proof.
  refine (proj1 (proj2 (refused_reply_gets_notice scripted
            (λ ev _, match ev with
                     | ReplyText _ EmptyString _ => Some empty_text
                     | _ => None
                     end)
            (sample_update "hello") (initial (World := Script) [Return ""])
            "" empty_text _ _ _ _))).
  - reflexivity.
  - reflexivity.
  - intros env0. reflexivity.
  - intros env0. reflexivity.
Defined.

Lemma one_request_and_one_reply_per_event_witness :
  length (replies_sent
            (trace (run scripted (λ _ _, None)
                      [Text (sample_update "hello"); Command "CLEAR" (sample_update "/CLEAR");
                       Command "stop" (sample_update "/stop")]
                      (initial (World := Script) [Raise timed_out]))))
  = 2%nat.
Proof.
  refine (proj2 (proj2 (proj2 (one_request_and_one_reply_per_event scripted (λ _ _, None)
            [Text (sample_update "hello"); Command "CLEAR" (sample_update "/CLEAR");
             Command "stop" (sample_update "/stop")]
            (initial (World := Script) [Raise timed_out]))) _)).
  intros ev' env'. reflexivity.
Defined.

Lemma threads_created_by_texts_witness :
  is_Some (memory (initial (World := Script) [Return "hi!"]) !! "42")
  ∨ ∃ update,
      Text update ∈ [Command "clear" (sample_update "/clear"); Text (sample_update "hello")]
      ∧ str (effective_user update) = "42".
Proof.
  refine (proj2 (threads_created_by_texts scripted (λ _ _, None)
            (Text (sample_update "hello"))
            [Command "clear" (sample_update "/clear"); Text (sample_update "hello")]
            (initial (World := Script) [Return "hi!"]) "42") _).
  vm_compute. eexists. reflexivity.
Defined.
